(** * TF-IDF artifact builder: [train_tfidf_recommender.py]

    A shallow embedding of the script that builds the TF-IDF model over the
    drugs table, and the properties of its corpus builder, tokenizer, IDF
    table, document weighter and artifact writer.

    Conventions of the embedding.
    - A Python [str] is a [string]; a character is read as the code point
      of the same number, so the strings of the model are the Python strings
      whose code points are below 256.  [str.lower], [str.strip] and the
      character class of [TOKEN_RE] are written out for these code points.
    - A Python [float] is a real number: [math.log] is [ln], [math.sqrt] is
      [sqrt], [/] is the division of [R].  Rounding is not part of the model.
    - A Python [dict] (and a [Counter]) is the list of its items in insertion
      order; keys are unique.
    - The iteration order of a Python [set] of strings is not fixed by the
      language (string hashes are salted per process): it is a parameter
      [iter] of the functions that iterate over a set.
    - Files are a [dict] from file name to the object dumped into the file.
    - The database session, the printed report and failures of the reads and
      writes themselves are left out: [main] is a function of the rows the
      query returned and of the files of the artifact directory. *)

From Stdlib Require Import Bool Arith Lia List NArith Ascii String.
From Stdlib Require Import Permutation.
From Stdlib Require Import Reals Lra.
Import ListNotations.

Local Open Scope string_scope.
Local Open Scope list_scope.

(** ** Python strings *)

Module PyStr.

Definition in_range (lo hi n : N) : bool := (N.leb lo n && N.leb n hi)%bool.

(** The characters [str.lower] changes, below 256: [A-Z], and the
    upper-case letters of Latin-1 (U+00C0..U+00DE without the
    multiplication sign U+00D7). *)
Definition is_upper (c : ascii) : bool :=
  let n := N_of_ascii c in
  (in_range 65 90 n || (in_range 192 222 n && negb (N.eqb n 215)))%bool.

Definition lower_char (c : ascii) : ascii :=
  if is_upper c then ascii_of_N (N_of_ascii c + 32) else c.

(** [s.lower()] *)
Fixpoint lower (s : string) : string :=
  match s with
  | EmptyString => EmptyString
  | String c s' => String (lower_char c) (lower s')
  end.

(** [c.isspace()], below 256: U+0009..U+000D, U+001C..U+0020, U+0085 and
    U+00A0. *)
Definition is_space (c : ascii) : bool :=
  let n := N_of_ascii c in
  (in_range 9 13 n || in_range 28 32 n || N.eqb n 133 || N.eqb n 160)%bool.

Definition is_empty (s : string) : bool :=
  match s with EmptyString => true | String _ _ => false end.

Fixpoint lstrip (s : string) : string :=
  match s with
  | EmptyString => EmptyString
  | String c s' => if is_space c then lstrip s' else s
  end.

Fixpoint rstrip (s : string) : string :=
  match s with
  | EmptyString => EmptyString
  | String c s' =>
      let r := rstrip s' in
      if (is_space c && is_empty r)%bool then EmptyString else String c r
  end.

(** Whitespace only (the empty string included). *)
Fixpoint all_space (s : string) : bool :=
  match s with
  | EmptyString => true
  | String c s' => (is_space c && all_space s')%bool
  end.

(** [s.strip()] *)
Definition strip (s : string) : string := rstrip (lstrip s).

(** [sep.join(parts)] *)
Fixpoint join (sep : string) (parts : list string) : string :=
  match parts with
  | [] => EmptyString
  | [p] => p
  | p :: ps => p ++ sep ++ join sep ps
  end.

End PyStr.

(** ** The tokenizer *)

(** The character class [[a-z]] of [TOKEN_RE]. *)
Definition is_az (c : ascii) : bool := PyStr.in_range 97 122 (N_of_ascii c).

Definition emit (cur : string) : list string :=
  if PyStr.is_empty cur then [] else [cur].

(** [TOKEN_RE.findall(s)] for [TOKEN_RE = re.compile(r"[a-z]+")]: the scan
    from left to right, [cur] being the match in progress.  A match extends
    as long as the next character is in the class (the [+] is greedy) and is
    reported when it cannot be extended. *)
Fixpoint findall_from (cur s : string) : list string :=
  match s with
  | EmptyString => emit cur
  | String c s' =>
      if is_az c then findall_from (cur ++ String c EmptyString) s'
      else emit cur ++ findall_from EmptyString s'
  end.

Definition TOKEN_RE_findall (s : string) : list string :=
  findall_from EmptyString s.

Definition tokenize (text : string) : list string :=
  TOKEN_RE_findall (PyStr.lower text).

(** What "the maximal runs of letters of [s], in order" means: [s] is read
    from the left as separators (characters outside [a-z]), which give no
    token, and runs of letters, each of which ends where the string ends or
    a separator stands. *)
Fixpoint all_az (s : string) : bool :=
  match s with
  | EmptyString => true
  | String c s' => (is_az c && all_az s')%bool
  end.

Definition at_boundary (s : string) : Prop :=
  match s with
  | EmptyString => True
  | String c _ => is_az c = false
  end.

Inductive maximal_runs : string -> list string -> Prop :=
| runs_end : maximal_runs EmptyString []
| runs_sep c s ts :
    is_az c = false -> maximal_runs s ts -> maximal_runs (String c s) ts
| runs_run t s ts :
    t <> EmptyString -> all_az t = true -> at_boundary s ->
    maximal_runs s ts -> maximal_runs (t ++ s) (t :: ts).

(** ** Python dictionaries and counters *)

Section Dict.

Context {V : Type}.

(** The items of a [dict], in insertion order. *)
Definition dict : Type := list (string * V).

Definition keys (d : dict) : list string := map fst d.
Definition values (d : dict) : list V := map snd d.

(** [d.get(k)]: [None] when [k] is not a key. *)
Fixpoint dict_get (d : dict) (k : string) : option V :=
  match d with
  | [] => None
  | (k', v) :: d' => if String.eqb k' k then Some v else dict_get d' k
  end.

(** [k in d] *)
Definition dict_mem (d : dict) (k : string) : bool :=
  match dict_get d k with Some _ => true | None => false end.

(** [d[k] = v]: the value of a key already there is replaced where it
    stands, a new key goes to the end. *)
Fixpoint dict_set (d : dict) (k : string) (v : V) : dict :=
  match d with
  | [] => [(k, v)]
  | (k', v') :: d' =>
      if String.eqb k' k then (k', v) :: d' else (k', v') :: dict_set d' k v
  end.

End Dict.

Arguments dict V : clear implicits.

(** [Counter]: a [dict] of counts; a missing key counts 0. *)
Definition Counter : Type := dict nat.

Definition counter_get (c : Counter) (k : string) : nat :=
  match dict_get c k with Some n => n | None => 0 end.

(** [c.update(iterable)]: one more for each element, in iteration order. *)
Definition counter_update (c : Counter) (items : list string) : Counter :=
  fold_left (fun c x => dict_set c x (counter_get c x + 1)) items c.

(** [x in seen] for the [set] of keys already seen. *)
Definition set_mem (x : string) (s : list string) : bool :=
  existsb (String.eqb x) s.

(** The orders in which a [set] built from a list may be iterated: each
    element of the list once, and nothing else. *)
Definition set_order (iter : list string -> list string) : Prop :=
  forall l, NoDup (iter l) /\ forall x, In x (iter l) <-> In x l.

(** ** The records of the drugs table *)

(** Modelled from the spec: the class [Drug] of [app.models] is not part of
    the sources.  The spec (section 6) gives a record these fields, each a
    string or null, and the script reads exactly these attributes. *)
Record Drug : Type := mkDrug {
  name : option string;
  description : option string;
  side_effects : option string;
  therapeutic_class : option string;
  action_class : option string;
  chemical_class : option string;
  substitutes : option string;
  habit_forming : option string
}.

(** [x or ""] *)
Definition or_empty (x : option string) : string :=
  match x with
  | Some s => s
  | None => EmptyString
  end.

Definition normalize (text : option string) : string :=
  match text with
  | None => EmptyString
  | Some t => if PyStr.is_empty t then EmptyString else PyStr.lower t
  end.

Definition build_corpus_row (d : Drug) : string * string :=
  let parts :=
    [ or_empty (name d);
      or_empty (description d);
      or_empty (side_effects d);
      or_empty (therapeutic_class d);
      or_empty (action_class d);
      or_empty (chemical_class d);
      or_empty (substitutes d);
      or_empty (habit_forming d) ] in
  let joined :=
    PyStr.join " " (filter (fun p => negb (PyStr.is_empty p)) parts) in
  (PyStr.strip (or_empty (name d)), normalize (Some joined)).

(** ** The steps of [main] *)

(** *** 1) Build corpus *)

(** The state of the first loop: [corpus], [names] and [seen]. *)
Record corpus_state : Type := mkCorpus {
  corpus : list string;
  names : list string;
  seen : list string
}.

(** The dedup key of a name: [name.lower().strip()]. *)
Definition name_key (nm : string) : string := PyStr.strip (PyStr.lower nm).

(** The body of [for d in drugs]. *)
Definition corpus_step (st : corpus_state) (d : Drug) : corpus_state :=
  let (nm, text) := build_corpus_row d in
  if PyStr.is_empty nm then st
  else
    let key := name_key nm in
    if set_mem key (seen st) then st
    else
      let seen' := key :: seen st in
      if PyStr.is_empty (PyStr.strip text)
      then mkCorpus (corpus st) (names st) seen'
      else mkCorpus (corpus st ++ [text]) (names st ++ [nm]) seen'.

Definition build_corpus (drugs : list Drug) : corpus_state :=
  fold_left corpus_step drugs (mkCorpus [] [] []).

(** *** 2) Document frequencies *)

(** The body of [for doc in corpus], on the pair [(df, tokenized_docs)]. *)
Definition df_step (iter : list string -> list string)
    (st : Counter * list (list string)) (doc : string)
  : Counter * list (list string) :=
  let toks := tokenize doc in
  (counter_update (fst st) (iter toks), snd st ++ [toks]).

Definition document_frequencies (iter : list string -> list string)
    (corpus : list string) : Counter * list (list string) :=
  fold_left (df_step iter) corpus ([], []).

(** *** 3) IDF *)

Local Open Scope R_scope.

(** [1.0 + math.log((N + 1) / (c + 1))] *)
Definition idf_weight (N c : nat) : R :=
  1 + ln (INR (N + 1) / INR (c + 1)).

Definition idf_table (N : nat) (df : Counter) : dict R :=
  fold_left (fun idf '(term, c) => dict_set idf term (idf_weight N c)) df [].

(** *** 4) TF-IDF per document, L2-normalized *)

(** [1 + math.log(1 + f)] *)
Definition sublinear_tf (f : nat) : R := 1 + ln (INR (1 + f)).

(** The loop [for term, f in tf.items()]: the weights before normalization. *)
Definition raw_weights (idf : dict R) (toks : list string) : dict R :=
  let tf := counter_update [] toks in
  fold_left
    (fun weights '(term, f) =>
       match dict_get idf term with
       | None => weights
       | Some i => dict_set weights term (sublinear_tf f * i)
       end)
    tf [].

(** [sum(v * v for v in values)]: the sum starts from 0 and adds the squares
    in order. *)
Definition sum_squares (vs : list R) : R :=
  fold_left Rplus (map (fun v => v * v) vs) 0.

(** [math.sqrt(sum(...)) or 1.0] *)
Definition l2_norm (weights : dict R) : R :=
  let s := sqrt (sum_squares (values weights)) in
  if Req_EM_T s 0 then 1 else s.

(** [{t: v / norm for t, v in weights.items()}] *)
Definition l2_normalize (weights : dict R) : dict R :=
  let norm := l2_norm weights in
  fold_left (fun acc '(t, v) => dict_set acc t (v / norm)) weights [].

Definition document_vector (idf : dict R) (toks : list string) : dict R :=
  l2_normalize (raw_weights idf toks).

(** An element of [docs_tfidf]: [{"name": name, "weights": weights}]. *)
Record doc_entry : Type := mkDoc {
  doc_name : string;
  doc_weights : dict R
}.

Definition build_docs_tfidf (idf : dict R) (tokenized_docs : list (list string))
    (names : list string) : list doc_entry :=
  map (fun '(toks, nm) => mkDoc nm (document_vector idf toks))
      (combine tokenized_docs names).

Local Close Scope R_scope.

(** *** 5) Save artifacts *)

(** The object dumped by [json.dump] into [model_meta.json]. *)
Record model_meta : Type := mkMeta {
  built_at : string;
  num_docs : nat;
  num_terms : nat;
  notes : string;
  source : string;
  script : string
}.

(** What a file of the artifact directory holds. *)
Inductive artifact : Type :=
| PickledVocab (idf : dict R)
| PickledDocs (docs_tfidf : list doc_entry)
| JsonMeta (meta : model_meta).

(** The artifact directory: file name to content.  Opening a file for
    writing and dumping into it replaces what the file held. *)
Definition files : Type := dict artifact.

Definition VOCAB_PKL : string := "vocab_idf.pkl".
Definition DOCS_PKL : string := "drugs_tfidf.pkl".
Definition META_JSON : string := "model_meta.json".

(** What a run takes from outside the table: the iteration order of sets,
    the clock ([datetime.utcnow().isoformat() + "Z"]) and the path of the
    script ([str(THIS_FILE)]). *)
Record runtime : Type := mkRuntime {
  set_iter : list string -> list string;
  utcnow_z : string;
  this_file : string
}.

Inductive exception : Type :=
| RuntimeError (msg : string).

Inductive outcome : Type :=
| Done
| Raised (e : exception).

Definition no_rows_found : exception :=
  RuntimeError "No rows found in drugs table. Ingest drugs first.".

Definition all_entries_empty : exception :=
  RuntimeError "All drug entries were empty after cleaning; nothing to train on.".

(** What [main] computes between reading the table and saving. *)
Record model : Type := mkModel {
  model_N : nat;
  model_idf : dict R;
  model_docs : list doc_entry
}.

Definition train (iter : list string -> list string) (st : corpus_state)
  : model :=
  let N := List.length (corpus st) in
  let (df, tokenized_docs) := document_frequencies iter (corpus st) in
  let idf := idf_table N df in
  mkModel N idf (build_docs_tfidf idf tokenized_docs (names st)).

Definition save_artifacts (rt : runtime) (m : model) (fs : files) : files :=
  let fs := dict_set fs VOCAB_PKL (PickledVocab (model_idf m)) in
  let fs := dict_set fs DOCS_PKL (PickledDocs (model_docs m)) in
  dict_set fs META_JSON
    (JsonMeta
       (mkMeta (utcnow_z rt) (model_N m) (List.length (model_idf m))
          "Lightweight TF-IDF recommender artifacts"
          "PostgreSQL: drugs table"
          (this_file rt))).

(** [main()], from the rows [session.query(Drug).all()] returned and the
    files of the artifact directory, to the files it leaves and how it
    ends. *)
Definition main (rt : runtime) (drugs : list Drug) (fs : files)
  : files * outcome :=
  match drugs with
  | [] => (fs, Raised no_rows_found)
  | _ :: _ =>
      let st := build_corpus drugs in
      match List.length (corpus st) with
      | O => (fs, Raised all_entries_empty)
      | S _ => (save_artifacts rt (train (set_iter rt) st) fs, Done)
      end
  end.

(** ** The corpus builder, in the words of the spec *)

Definition record_name (d : Drug) : string := fst (build_corpus_row d).
Definition record_text (d : Drug) : string := snd (build_corpus_row d).
Definition record_key (d : Drug) : string := name_key (record_name d).

(** A record is skipped when its name, trimmed, is empty, or the key of its
    name is the key of a record before it, or its composed text is empty
    once trimmed. *)
Definition skipped (earlier : list Drug) (d : Drug) : bool :=
  (PyStr.is_empty (record_name d)
   || set_mem (record_key d) (map record_key earlier)
   || PyStr.is_empty (PyStr.strip (record_text d)))%bool.

(** The same with "its name is empty" read of the field itself. *)
Definition skipped_field_empty (earlier : list Drug) (d : Drug) : bool :=
  (PyStr.is_empty (or_empty (name d))
   || set_mem (record_key d) (map record_key earlier)
   || PyStr.is_empty (PyStr.strip (record_text d)))%bool.

(** A record with the given name and description and no other field. *)
Definition drug_of (nm descr : string) : Drug :=
  mkDrug (Some nm) (Some descr) None None None None None None.

(** A record with every field null. *)
Definition null_drug : Drug :=
  mkDrug None None None None None None None None.

(** ** Document frequency, in the words of the spec *)

(** The number of documents that contain the term at least once. *)
Definition doc_count (t : string) (docs : list (list string)) : nat :=
  List.length (filter (set_mem t) docs).

(** The number of times the term stands in the token sequence. *)
Definition term_count (t : string) (toks : list string) : nat :=
  count_occ string_dec toks t.

(** Two iteration orders for sets: by first occurrence in the list the set
    is built from, and the reverse. *)
Fixpoint first_seen (l : list string) : list string :=
  match l with
  | [] => []
  | x :: l' => x :: filter (fun y => negb (String.eqb x y)) (first_seen l')
  end.

Definition last_seen (l : list string) : list string := rev (first_seen l).

(** The counter of step 2, as a loop over the tokenized documents. *)
Definition df_loop (iter : list string -> list string)
    (docs : list (list string)) (c0 : Counter) : Counter :=
  fold_left (fun df toks => counter_update df (iter toks)) docs c0.

(** The Vocabulary of a corpus: the table [idf] of steps 2 and 3. *)
Definition vocabulary (iter : list string -> list string)
    (corpus : list string) : dict R :=
  idf_table (List.length corpus) (fst (document_frequencies iter corpus)).

(** Four documents that all contain the token "aspirin". *)
Definition aspirin_corpus : list string :=
  ["aspirin tablet"; "aspirin low dose"; "buffered aspirin"; "aspirin"].

(** The weight the loop of step 4 sets for a term of count [f], if any. *)
Definition weight_of (idf : dict R) (term : string) (f : nat) : option R :=
  option_map (fun i => (sublinear_tf f * i)%R) (dict_get idf term).

(** The three records of the end-to-end scenario. *)
Definition three_records : list Drug :=
  [drug_of "A" "fever pain"; drug_of "B" "fever cough"; drug_of "C" "cough pain"].

(** Two runs that differ in the order of sets, in the clock and in nothing
    else. *)
Definition run_first : runtime :=
  mkRuntime first_seen "2024-05-01T10:00:00Z" "scripts/train_tfidf_recommender.py".

Definition run_last : runtime :=
  mkRuntime last_seen "2024-05-02T11:30:00Z" "scripts/train_tfidf_recommender.py".

(** Every field of the record is null or the empty string. *)
Definition all_fields_empty (d : Drug) : bool :=
  forallb (fun x => PyStr.is_empty (or_empty x))
    [ name d; description d; side_effects d; therapeutic_class d;
      action_class d; chemical_class d; substitutes d; habit_forming d ].

(** The numbers of the end-to-end scenario: the raw weight of a term of a
    description (document frequency 2 of 3), the raw weight of the letter of
    a name (document frequency 1 of 3), and the norm of a document. *)
Definition scenario_descr_weight : R := ((1 + ln 2) * (1 + ln (4 / 3)))%R.
Definition scenario_name_weight : R := ((1 + ln 2) * (1 + ln (4 / 2)))%R.
Definition scenario_norm : R :=
  sqrt (scenario_name_weight * scenario_name_weight
        + scenario_descr_weight * scenario_descr_weight
        + scenario_descr_weight * scenario_descr_weight)%R.

(** The document of a three-term vector: the name term first. *)
Definition scenario_vector (k1 k2 k3 : string) : dict R :=
  [ (k1, scenario_name_weight / scenario_norm)%R;
    (k2, scenario_descr_weight / scenario_norm)%R;
    (k3, scenario_descr_weight / scenario_norm)%R ].

(** The corpus of the three records. *)
Definition scenario_texts : list string :=
  ["a fever pain"; "b fever cough"; "c cough pain"].

(** * Properties *)

Example tokenize_drug :
  tokenize "Drug-123 Interacts (severely)!" = ["drug"; "interacts"; "severely"].
Proof. reflexivity. Qed.

(** ** The tokenizer *)

Section Tokenizer.

Local Open Scope string_scope.

Lemma append_empty_r (s : string) : s ++ EmptyString = s.
Proof. induction s as [|c s IH]; simpl; [reflexivity | now rewrite IH]. Qed.

Lemma append_assoc (a b c : string) : (a ++ b) ++ c = a ++ (b ++ c).
Proof. induction a as [|x a IH]; simpl; [reflexivity | now rewrite IH]. Qed.

Lemma append_nonempty (a : string) (c : ascii) :
  a ++ String c EmptyString <> EmptyString.
Proof. destruct a; discriminate. Qed.

Lemma emit_nonempty (t : string) : t <> EmptyString -> emit t = [t]%list.
Proof. destruct t; [congruence | reflexivity]. Qed.

Lemma all_az_snoc (t : string) (c : ascii) :
  all_az t = true -> is_az c = true ->
  all_az (t ++ String c EmptyString) = true.
Proof.
  induction t as [|x t IH]; simpl; intros Ht Hc.
  - now rewrite Hc.
  - apply andb_true_iff in Ht as [Hx Ht]. rewrite Hx. simpl. now apply IH.
Qed.

(** The scan carries a run in progress to the end of the letters. *)
Lemma findall_from_run (t s cur : string) :
  all_az t = true -> findall_from cur (t ++ s) = findall_from (cur ++ t) s.
Proof.
  revert cur. induction t as [|c t IH]; simpl; intros cur Ht.
  - now rewrite append_empty_r.
  - apply andb_true_iff in Ht as [Hc Ht]. rewrite Hc.
    rewrite IH by assumption. now rewrite append_assoc.
Qed.

(** At a boundary a run in progress is reported. *)
Lemma findall_from_boundary (cur s : string) :
  cur <> EmptyString -> at_boundary s ->
  findall_from cur s = (cur :: findall_from EmptyString s)%list.
Proof.
  intros Hcur Hs. destruct s as [|c s]; simpl in *.
  - now apply emit_nonempty.
  - rewrite Hs. now rewrite emit_nonempty.
Qed.

Lemma findall_sound (s : string) :
  forall cur, all_az cur = true ->
    (cur = EmptyString -> maximal_runs s (findall_from cur s)) /\
    (cur <> EmptyString -> maximal_runs (cur ++ s) (findall_from cur s)).
Proof.
  induction s as [|c s IH]; intros cur Hcur; simpl.
  - split; intros H.
    + subst. constructor.
    + rewrite emit_nonempty by assumption.
      apply runs_run; simpl; auto. constructor.
  - destruct (is_az c) eqn:Hc.
    + destruct (IH (cur ++ String c EmptyString)
                  (all_az_snoc _ _ Hcur Hc)) as [_ IH2].
      specialize (IH2 (append_nonempty _ _)).
      rewrite append_assoc in IH2. simpl in IH2.
      split; intros H; [subst; exact IH2 | exact IH2].
    + destruct (IH EmptyString eq_refl) as [IH1 _].
      specialize (IH1 eq_refl).
      split; intros H.
      * subst. simpl. now apply runs_sep.
      * rewrite emit_nonempty by assumption. simpl.
        apply runs_run; simpl; auto. now apply runs_sep.
Qed.

Lemma findall_complete (s : string) (ts : list string) :
  maximal_runs s ts -> TOKEN_RE_findall s = ts.
Proof.
  unfold TOKEN_RE_findall.
  induction 1 as [|c s ts Hc _ IH|t s ts Ht Haz Hb _ IH]; simpl.
  - reflexivity.
  - now rewrite Hc.
  - rewrite findall_from_run by assumption. simpl.
    rewrite findall_from_boundary by assumption. now rewrite IH.
Qed.

Lemma findall_maximal_runs (s : string) (ts : list string) :
  maximal_runs s ts <-> TOKEN_RE_findall s = ts.
Proof.
  split; [apply findall_complete|].
  intros <-. exact (proj1 (findall_sound s EmptyString eq_refl) eq_refl).
Qed.

(** Every token is a non-empty word over [a-z]. *)
Lemma maximal_runs_tokens (s : string) (ts : list string) :
  maximal_runs s ts ->
  Forall (fun t => t <> EmptyString /\ all_az t = true) ts.
Proof. induction 1; auto. Qed.

End Tokenizer.

(** C6. [tokenize] lowercases its input and returns, in order, the maximal
    runs of the letters [a-z] of the lowercased text, and nothing else:
    every other character separates tokens and is dropped.  Each token is a
    non-empty word over [a-z]; the example of the spec gives its three
    words, and a text without letters gives the empty sequence. *)
Theorem tokenize_maximal_runs :
  (forall text ts,
      tokenize text = ts <-> maximal_runs (PyStr.lower text) ts) /\
  (forall text,
      Forall (fun t => t <> EmptyString /\ all_az t = true) (tokenize text)) /\
  tokenize "Drug-123 Interacts (severely)!"
    = ["drug"; "interacts"; "severely"] /\
  tokenize "" = [] /\
  tokenize "123 (!)" = [].
Proof.
  split; [|split; [|repeat split]].
  - intros text ts. unfold tokenize. symmetry. apply findall_maximal_runs.
  - intros text. apply (maximal_runs_tokens (PyStr.lower text)).
    now apply findall_maximal_runs.
Qed.

(** ** Strings: blank strings and keys *)

Section Strings.

Import PyStr.

Lemma is_empty_true (s : string) : is_empty s = true <-> s = EmptyString.
Proof. destruct s; simpl; split; congruence. Qed.

Lemma is_space_lower_char (c : ascii) : is_space (lower_char c) = is_space c.
Proof. destruct c as [[] [] [] [] [] [] [] []]; reflexivity. Qed.

Lemma all_space_lower (s : string) : all_space (lower s) = all_space s.
Proof.
  induction s as [|c s IH]; simpl; [reflexivity|].
  now rewrite is_space_lower_char, IH.
Qed.

Lemma lstrip_empty (s : string) : is_empty (lstrip s) = all_space s.
Proof.
  induction s as [|c s IH]; simpl; [reflexivity|].
  destruct (is_space c); simpl; [exact IH | reflexivity].
Qed.

Lemma all_space_lstrip (s : string) : all_space (lstrip s) = all_space s.
Proof.
  induction s as [|c s IH]; simpl; [reflexivity|].
  destruct (is_space c) eqn:Hc; simpl; [exact IH | now rewrite Hc].
Qed.

Lemma rstrip_empty (s : string) : is_empty (rstrip s) = all_space s.
Proof.
  induction s as [|c s IH]; simpl; [reflexivity|].
  rewrite IH. destruct (is_space c), (all_space s); reflexivity.
Qed.

(** [s.strip()] is empty exactly when [s] is empty or whitespace only. *)
Lemma strip_empty (s : string) : is_empty (strip s) = all_space s.
Proof. unfold strip. now rewrite rstrip_empty, all_space_lstrip. Qed.

Lemma lstrip_head (s : string) :
  match lstrip s with
  | EmptyString => True
  | String c _ => is_space c = false
  end.
Proof.
  induction s as [|c s IH]; simpl; [exact I|].
  destruct (is_space c) eqn:Hc; [exact IH | exact Hc].
Qed.

(** A stripped string that is not empty is not blank. *)
Lemma strip_not_blank (s : string) :
  is_empty (strip s) = false -> all_space (strip s) = false.
Proof.
  unfold strip. pose proof (lstrip_head s) as Hh.
  destruct (lstrip s) as [|c t]; simpl; [discriminate|].
  rewrite Hh. simpl. now rewrite Hh.
Qed.

(** The key of a name that is not empty is not empty. *)
Lemma name_key_nonempty (x : string) :
  is_empty (strip x) = false -> is_empty (name_key (strip x)) = false.
Proof.
  intros H. unfold name_key.
  now rewrite strip_empty, all_space_lower, strip_not_blank.
Qed.

Lemma name_key_empty : name_key EmptyString = EmptyString.
Proof. reflexivity. Qed.

Lemma set_mem_In (x : string) (l : list string) :
  set_mem x l = true <-> In x l.
Proof.
  unfold set_mem. rewrite existsb_exists. split.
  - intros (y & Hy & E). apply String.eqb_eq in E. now subst.
  - intros H. exists x. split; [assumption | apply String.eqb_refl].
Qed.

End Strings.

(** ** The corpus builder *)

Section CorpusBuilder.

Import PyStr.

Lemma build_corpus_snoc (pre : list Drug) (d : Drug) :
  build_corpus (pre ++ [d]) = corpus_step (build_corpus pre) d.
Proof. unfold build_corpus. now rewrite fold_left_app. Qed.

Lemma record_name_strip (d : Drug) :
  record_name d = strip (or_empty (name d)).
Proof. reflexivity. Qed.

Lemma corpus_step_eq (st : corpus_state) (d : Drug) :
  corpus_step st d =
    if is_empty (record_name d) then st
    else if set_mem (record_key d) (seen st) then st
    else if is_empty (strip (record_text d))
    then mkCorpus (corpus st) (names st) (record_key d :: seen st)
    else mkCorpus (corpus st ++ [record_text d])
                  (names st ++ [record_name d])
                  (record_key d :: seen st).
Proof.
  unfold corpus_step, record_key, record_name, record_text.
  destruct (build_corpus_row d) as [nm text]. reflexivity.
Qed.

(** [seen] holds the keys of the records read so far whose name is not
    empty. *)
Lemma seen_spec (pre : list Drug) (k : string) :
  In k (seen (build_corpus pre)) <->
  exists d, In d pre /\ is_empty (record_name d) = false /\ record_key d = k.
Proof.
  induction pre as [|d pre IH] using rev_ind.
  - simpl. split; [tauto | intros (d & [] & _)].
  - rewrite build_corpus_snoc, corpus_step_eq.
    assert (Hold : (exists d0, In d0 pre /\ is_empty (record_name d0) = false
                               /\ record_key d0 = k) ->
                   exists d0, In d0 (pre ++ [d])
                              /\ is_empty (record_name d0) = false
                              /\ record_key d0 = k).
    { intros (d0 & Hin & H). exists d0. split; [|exact H].
      apply in_or_app. now left. }
    assert (Hnew : forall P : Prop,
               (P <-> In k (seen (build_corpus pre))) ->
               (is_empty (record_name d) = false -> record_key d = k -> P) ->
               P <-> exists d0, In d0 (pre ++ [d])
                                /\ is_empty (record_name d0) = false
                                /\ record_key d0 = k).
    { intros P HP Hd. split.
      - intros H. apply Hold, IH, HP, H.
      - intros (d0 & Hin & Hne & Hk).
        apply in_app_or in Hin as [Hin | [<- | []]].
        + apply HP, IH. now exists d0.
        + now apply Hd. }
    destruct (is_empty (record_name d)) eqn:Hn.
    + apply Hnew; [tauto | discriminate].
    + destruct (set_mem (record_key d) (seen (build_corpus pre))) eqn:Hs.
      * apply Hnew; [tauto|]. intros _ <-. now apply set_mem_In.
      * assert (Hcons : forall st,
                   seen st = record_key d :: seen (build_corpus pre) ->
                   In k (seen st) <->
                   exists d0, In d0 (pre ++ [d])
                              /\ is_empty (record_name d0) = false
                              /\ record_key d0 = k).
        { intros st ->. simpl. split.
          - intros [<- | H].
            + exists d. split; [apply in_or_app; right; now left | now split].
            + apply Hold, IH, H.
          - intros (d0 & Hin & Hne & Hk).
            apply in_app_or in Hin as [Hin | [<- | []]].
            + right. apply IH. now exists d0.
            + now left. }
        destruct (is_empty (strip (record_text d))); now apply Hcons.
Qed.

(** For a record whose name is not empty, its key is in [seen] exactly
    when it is the key of a record before it. *)
Lemma seen_earlier_keys (pre : list Drug) (d : Drug) :
  is_empty (record_name d) = false ->
  set_mem (record_key d) (seen (build_corpus pre))
  = set_mem (record_key d) (map record_key pre).
Proof.
  intros Hn. apply eq_true_iff_eq.
  rewrite !set_mem_In, seen_spec, in_map_iff. split.
  - intros (d0 & Hin & _ & Hk). now exists d0.
  - intros (d0 & Hk & Hin). exists d0. repeat split; try assumption.
    destruct (is_empty (record_name d0)) eqn:H0; [|reflexivity].
    apply is_empty_true in H0.
    assert (Hd : is_empty (record_key d) = false).
    { unfold record_key. rewrite record_name_strip in *.
      now apply name_key_nonempty. }
    unfold record_key in Hk. rewrite H0, name_key_empty in Hk.
    unfold record_key in Hd. now rewrite <- Hk in Hd.
Qed.

Lemma build_corpus_step (pre : list Drug) (d : Drug) :
  corpus (build_corpus (pre ++ [d]))
  = corpus (build_corpus pre) ++ (if skipped pre d then [] else [record_text d])
  /\
  names (build_corpus (pre ++ [d]))
  = names (build_corpus pre) ++ (if skipped pre d then [] else [record_name d]).
Proof.
  rewrite build_corpus_snoc, corpus_step_eq. unfold skipped.
  destruct (is_empty (record_name d)) eqn:Hn; simpl.
  - now rewrite !app_nil_r.
  - rewrite <- (seen_earlier_keys pre d Hn).
    destruct (set_mem (record_key d) (seen (build_corpus pre))); simpl.
    + now rewrite !app_nil_r.
    + destruct (is_empty (strip (record_text d))); simpl;
        now rewrite ?app_nil_r.
Qed.

(** [corpus] and [names] go together. *)
Lemma build_corpus_lengths (ds : list Drug) :
  List.length (names (build_corpus ds)) = List.length (corpus (build_corpus ds)).
Proof.
  induction ds as [|d ds IH] using rev_ind; [reflexivity|].
  destruct (build_corpus_step ds d) as [-> ->].
  rewrite !length_app, IH. now destruct (skipped ds d).
Qed.

End CorpusBuilder.

(** C7, as the code has it.  The corpus builder keeps the entries in input
    order: reading one more record [d] after the records [pre] appends the
    row of [d] to the corpus and to the names, or leaves both as they are,
    and it leaves them as they are exactly when the name of [d], trimmed, is
    empty (null, empty or whitespace only), or the lower-cased, trimmed name
    of [d] is that of a record of [pre] (the first occurrence wins), or the
    composed text of [d] is empty or whitespace only.  Of two records named
    "Aspirin" and "aspirin " only the first is in the corpus. *)
Theorem corpus_builder_skips :
  corpus (build_corpus []) = [] /\ names (build_corpus []) = [] /\
  (forall pre d,
      corpus (build_corpus (pre ++ [d]))
      = corpus (build_corpus pre)
          ++ (if skipped pre d then [] else [record_text d])
      /\
      names (build_corpus (pre ++ [d]))
      = names (build_corpus pre)
          ++ (if skipped pre d then [] else [record_name d])) /\
  (forall pre d,
      skipped pre d = true <->
      PyStr.strip (or_empty (name d)) = EmptyString
      \/ (exists d', In d' pre /\ record_key d' = record_key d)
      \/ PyStr.all_space (record_text d) = true) /\
  (let ds := [drug_of "Aspirin" "pain relief"; drug_of "aspirin " "copy"] in
   names (build_corpus ds) = ["Aspirin"] /\
   corpus (build_corpus ds) = ["aspirin pain relief"]).
Proof.
  split; [reflexivity|]. split; [reflexivity|].
  split; [exact build_corpus_step|]. split; [|split; reflexivity].
  intros pre d. unfold skipped.
  rewrite !orb_true_iff, is_empty_true, set_mem_In, in_map_iff, strip_empty.
  rewrite record_name_strip. split.
  - intros [[H | (d' & H1 & H2)] | H]; auto. right. left. now exists d'.
  - intros [H | [(d' & H1 & H2) | H]]; auto. left. right. now exists d'.
Qed.

(** C7, the claim as written fails for a name that is whitespace only: the
    name field is not empty, no record comes before, the composed text
    ["  fever"] (the name, the separator, the description) is not blank, and
    yet the record is skipped. *)
Lemma blank_name_skipped :
  let d := drug_of " " "fever" in
  PyStr.is_empty (or_empty (name d)) = false /\
  set_mem (record_key d) (map record_key []) = false /\
  PyStr.is_empty (PyStr.strip (record_text d)) = false /\
  skipped_field_empty [] d = false /\
  corpus (build_corpus ([] ++ [d])) = [] /\
  corpus (build_corpus ([] ++ [d]))
  <> corpus (build_corpus [])
       ++ (if skipped_field_empty [] d then [] else [record_text d]).
Proof. repeat split; try reflexivity. discriminate. Qed.

(** ** Dictionaries *)

Section DictFacts.

Context {V : Type}.
Implicit Types (d : dict V) (k : string) (v : V).

Lemma dict_get_set d k v k' :
  dict_get (dict_set d k v) k'
  = if String.eqb k k' then Some v else dict_get d k'.
Proof.
  induction d as [|[k0 v0] d IH]; simpl.
  - reflexivity.
  - destruct (String.eqb k0 k) eqn:E0; simpl.
    + apply String.eqb_eq in E0. subst k0.
      now destruct (String.eqb k k').
    + rewrite IH. destruct (String.eqb k0 k') eqn:E1; [|reflexivity].
      apply String.eqb_eq in E1. subst k0. now rewrite String.eqb_sym, E0.
Qed.

Lemma dict_get_In d k : (exists v, dict_get d k = Some v) <-> In k (keys d).
Proof.
  induction d as [|[k0 v0] d IH]; simpl.
  - split; [intros (v & H); discriminate | tauto].
  - destruct (String.eqb k0 k) eqn:E.
    + apply String.eqb_eq in E. split; [now left | now exists v0].
    + rewrite IH. apply String.eqb_neq in E. tauto.
Qed.

Lemma dict_get_None d k : dict_get d k = None <-> ~ In k (keys d).
Proof.
  rewrite <- dict_get_In. destruct (dict_get d k) as [v|].
  - split; [discriminate | intros H; exfalso; apply H; now exists v].
  - split; [intros _ (v & H); discriminate | reflexivity].
Qed.

Lemma dict_get_value d k v : dict_get d k = Some v -> In (k, v) d.
Proof.
  induction d as [|[k0 v0] d IH]; simpl; [discriminate|].
  destruct (String.eqb k0 k) eqn:E.
  - apply String.eqb_eq in E. intros [= <-]. subst. now left.
  - intros H. right. now apply IH.
Qed.

Lemma dict_get_NoDup d k v :
  NoDup (keys d) -> In (k, v) d -> dict_get d k = Some v.
Proof.
  induction d as [|[k0 v0] d IH]; simpl; [tauto|].
  intros Hnd Hin. inversion Hnd as [|? ? Hk0 Hnd']; subst.
  destruct Hin as [[= -> ->] | Hin].
  - now rewrite String.eqb_refl.
  - destruct (String.eqb k0 k) eqn:E; [|now apply IH].
    apply String.eqb_eq in E. subst. exfalso. apply Hk0.
    unfold keys. apply in_map_iff. now exists (k, v).
Qed.

Lemma dict_set_fresh d k v :
  ~ In k (keys d) -> dict_set d k v = d ++ [(k, v)].
Proof.
  induction d as [|[k0 v0] d IH]; simpl; intros H; [reflexivity|].
  destruct (String.eqb k0 k) eqn:E.
  - apply String.eqb_eq in E. tauto.
  - rewrite IH; tauto.
Qed.

Lemma keys_set d k v :
  keys (dict_set d k v) = if dict_mem d k then keys d else keys d ++ [k].
Proof.
  unfold dict_mem.
  induction d as [|[k0 v0] d IH]; simpl; [reflexivity|].
  destruct (String.eqb k0 k) eqn:E; simpl; [reflexivity|].
  rewrite IH. now destruct (dict_get d k).
Qed.

Lemma keys_set_In d k v x :
  In x (keys (dict_set d k v)) <-> x = k \/ In x (keys d).
Proof.
  rewrite keys_set. unfold dict_mem.
  destruct (dict_get d k) as [v0|] eqn:E.
  - split; [tauto|]. intros [-> | H]; [|assumption].
    apply dict_get_In. now exists v0.
  - rewrite in_app_iff. simpl. intuition congruence.
Qed.

Lemma keys_set_NoDup d k v : NoDup (keys d) -> NoDup (keys (dict_set d k v)).
Proof.
  intros H. rewrite keys_set. unfold dict_mem.
  destruct (dict_get d k) eqn:E; [assumption|].
  apply dict_get_None in E.
  apply NoDup_app; [assumption | repeat constructor; simpl; tauto |].
  intros x Hx [<- | []]. tauto.
Qed.

(** A loop that sets each key of a list of items with distinct keys builds
    the items one after the other. *)
Lemma fold_set_items {A : Type} (g : string -> A -> V)
    (l : list (string * A)) (acc : dict V) :
  NoDup (keys acc ++ map fst l) ->
  fold_left (fun acc '(k, a) => dict_set acc k (g k a)) l acc
  = acc ++ map (fun '(k, a) => (k, g k a)) l.
Proof.
  revert acc. induction l as [|[k a] l IH]; simpl; intros acc H.
  - now rewrite app_nil_r.
  - assert (Hk : ~ In k (keys acc)).
    { intros Hin. apply NoDup_remove_2 in H. apply H.
      apply in_or_app. now left. }
    rewrite dict_set_fresh by assumption. rewrite IH.
    + now rewrite <- app_assoc.
    + unfold keys. rewrite map_app. simpl. rewrite <- app_assoc. exact H.
Qed.

End DictFacts.

(** ** Counters and document frequencies *)

Section Counters.

Implicit Types (c : Counter) (k t : string).

Lemma counter_get_set c x n k :
  counter_get (dict_set c x n) k
  = if String.eqb x k then n else counter_get c k.
Proof.
  unfold counter_get. rewrite dict_get_set. now destruct (String.eqb x k).
Qed.

Lemma counter_update_get items : forall c k,
  counter_get (counter_update c items) k
  = counter_get c k + count_occ string_dec items k.
Proof.
  unfold counter_update.
  induction items as [|x items IH]; intros c k; simpl; [lia|].
  rewrite IH, counter_get_set.
  destruct (string_dec x k) as [->|Hne].
  - rewrite String.eqb_refl. lia.
  - apply String.eqb_neq in Hne. rewrite Hne. lia.
Qed.

Lemma counter_update_keys items : forall c k,
  In k (keys (counter_update c items)) <-> In k (keys c) \/ In k items.
Proof.
  unfold counter_update.
  induction items as [|x items IH]; intros c k; simpl; [tauto|].
  rewrite IH, keys_set_In. intuition congruence.
Qed.

Lemma counter_update_NoDup items : forall c,
  NoDup (keys c) -> NoDup (keys (counter_update c items)).
Proof.
  unfold counter_update.
  induction items as [|x items IH]; intros c H; simpl; [assumption|].
  apply IH. now apply keys_set_NoDup.
Qed.

Lemma doc_count_cons t toks docs :
  doc_count t (toks :: docs)
  = (if set_mem t toks then 1 else 0) + doc_count t docs.
Proof. unfold doc_count. simpl. now destruct (set_mem t toks). Qed.

Lemma doc_count_pos t docs :
  0 < doc_count t docs <-> exists toks, In toks docs /\ In t toks.
Proof.
  induction docs as [|toks docs IH].
  - simpl. split; [unfold doc_count; simpl; lia | intros (? & [] & _)].
  - rewrite doc_count_cons. destruct (set_mem t toks) eqn:E.
    + split; [|lia]. intros _. exists toks. split; [now left|].
      now apply set_mem_In.
    + simpl. rewrite IH. split.
      * intros (d & H1 & H2). exists d. split; [now right | assumption].
      * intros (d & [<- | H1] & H2).
        -- apply set_mem_In in H2. congruence.
        -- now exists d.
Qed.

Lemma doc_count_le t docs : doc_count t docs <= List.length docs.
Proof. unfold doc_count. apply filter_length_le. Qed.

Lemma doc_count_all t docs :
  (forall toks, In toks docs -> In t toks) ->
  doc_count t docs = List.length docs.
Proof.
  induction docs as [|toks docs IH]; intros H; [reflexivity|].
  rewrite doc_count_cons, IH by (intros; apply H; now right).
  assert (E : set_mem t toks = true) by (apply set_mem_In, H; now left).
  now rewrite E.
Qed.

Variable iter : list string -> list string.
Hypothesis iter_order : set_order iter.

(** Iterating over [set(toks)] meets each token of [toks] once. *)
Lemma count_occ_iter toks t :
  count_occ string_dec (iter toks) t = if set_mem t toks then 1 else 0.
Proof.
  destruct (iter_order toks) as [Hnd Hin].
  pose proof (proj1 (NoDup_count_occ string_dec (iter toks)) Hnd t) as Hle.
  pose proof (count_occ_In string_dec (iter toks) t) as Hpos.
  rewrite Hin in Hpos. destruct (set_mem t toks) eqn:E.
  - apply set_mem_In in E. apply Hpos in E. lia.
  - destruct (count_occ string_dec (iter toks) t) eqn:Ec; [reflexivity|].
    assert (Ht : In t toks) by (apply Hpos; lia).
    apply set_mem_In in Ht. congruence.
Qed.

Lemma document_frequencies_fold corpus : forall st,
  fold_left (df_step iter) corpus st
  = (df_loop iter (map tokenize corpus) (fst st), snd st ++ map tokenize corpus).
Proof.
  induction corpus as [|doc corpus IH]; intros [df tdocs]; simpl.
  - now rewrite app_nil_r.
  - rewrite IH. simpl. now rewrite <- app_assoc.
Qed.

Lemma document_frequencies_eq corpus :
  document_frequencies iter corpus
  = (df_loop iter (map tokenize corpus) [], map tokenize corpus).
Proof. unfold document_frequencies. now rewrite document_frequencies_fold. Qed.

Lemma df_loop_get docs : forall c0 t,
  counter_get (df_loop iter docs c0) t = counter_get c0 t + doc_count t docs.
Proof.
  unfold df_loop.
  induction docs as [|toks docs IH]; intros c0 t; simpl.
  - unfold doc_count. simpl. lia.
  - rewrite IH, counter_update_get, count_occ_iter, doc_count_cons. lia.
Qed.

Lemma df_loop_NoDup docs : forall c0,
  NoDup (keys c0) -> NoDup (keys (df_loop iter docs c0)).
Proof.
  unfold df_loop.
  induction docs as [|toks docs IH]; intros c0 H; simpl; [assumption|].
  apply IH. now apply counter_update_NoDup.
Qed.

Lemma df_loop_keys docs : forall c0 t,
  In t (keys (df_loop iter docs c0)) <->
  In t (keys c0) \/ exists toks, In toks docs /\ In t toks.
Proof.
  unfold df_loop.
  induction docs as [|toks docs IH]; intros c0 t; simpl.
  - split; [tauto | intros [H | (? & [] & _)]; assumption].
  - rewrite IH, counter_update_keys.
    rewrite (proj2 (iter_order toks) t). split.
    + intros [[H | H] | (d & H1 & H2)]; [now left | |].
      * right. exists toks. split; [now left | assumption].
      * right. exists d. split; [now right | assumption].
    + intros [H | (d & [<- | H1] & H2)]; [tauto | tauto |].
      right. now exists d.
Qed.

(** The counter of step 2 gives a term the number of documents that
    contain it, and has no other term. *)
Lemma df_lookup docs t :
  dict_get (df_loop iter docs []) t
  = match doc_count t docs with
    | O => None
    | S c => Some (S c)
    end.
Proof.
  pose proof (df_loop_get docs [] t) as Hget.
  pose proof (df_loop_keys docs [] t) as Hkeys.
  rewrite <- dict_get_In in Hkeys. unfold counter_get in Hget. simpl in *.
  pose proof (doc_count_pos t docs) as Hpos.
  destruct (dict_get (df_loop iter docs []) t) as [n|].
  - subst n. assert (H : 0 < doc_count t docs).
    { apply Hpos. destruct Hkeys as [Hk _].
      destruct Hk as [[]|H]; [now exists (doc_count t docs) | exact H]. }
    destruct (doc_count t docs); [lia | reflexivity].
  - destruct (doc_count t docs); [reflexivity | discriminate].
Qed.

End Counters.

(** ** Iteration orders of sets *)

Section SetOrders.

Lemma first_seen_In (l : list string) (x : string) :
  In x (first_seen l) <-> In x l.
Proof.
  induction l as [|y l IH]; simpl; [tauto|].
  rewrite filter_In, IH. destruct (string_dec y x) as [->|Hne].
  - tauto.
  - apply String.eqb_neq in Hne. rewrite Hne. simpl.
    apply String.eqb_neq in Hne. intuition congruence.
Qed.

Lemma first_seen_NoDup (l : list string) : NoDup (first_seen l).
Proof.
  induction l as [|y l IH]; simpl; constructor.
  - rewrite filter_In, String.eqb_refl. simpl. intros [_ H]. discriminate.
  - now apply NoDup_filter.
Qed.

Lemma first_seen_order : set_order first_seen.
Proof. intros l. split; [apply first_seen_NoDup | apply first_seen_In]. Qed.

Lemma last_seen_order : set_order last_seen.
Proof.
  intros l. unfold last_seen. split.
  - apply NoDup_rev, first_seen_NoDup.
  - intros x. rewrite <- in_rev. apply first_seen_In.
Qed.

End SetOrders.

(** ** The IDF table *)

Section Idf.

Local Open Scope R_scope.

Lemma dict_get_map {A B : Type} (g : A -> B) (l : dict A) (t : string) :
  dict_get (map (fun '(k, a) => (k, g a)) l) t = option_map g (dict_get l t).
Proof.
  induction l as [|[k a] l IH]; simpl; [reflexivity|].
  now destruct (String.eqb k t).
Qed.

Lemma keys_map {A B : Type} (g : A -> B) (l : dict A) :
  keys (map (fun '(k, a) => (k, g a)) l) = keys l.
Proof.
  unfold keys. rewrite map_map. apply map_ext. now intros [k a].
Qed.

Lemma idf_table_map (N : nat) (df : Counter) :
  NoDup (keys df) ->
  idf_table N df = map (fun '(t, c) => (t, idf_weight N c)) df.
Proof.
  intros H. unfold idf_table.
  now rewrite (fold_set_items (fun _ c => idf_weight N c)).
Qed.

Lemma ln_nonneg (x : R) : 1 <= x -> 0 <= ln x.
Proof.
  intros [H | <-].
  - left. rewrite <- ln_1. apply ln_increasing; lra.
  - rewrite ln_1. lra.
Qed.

Lemma INR_succ_pos (n : nat) : 0 < INR (n + 1).
Proof. apply lt_0_INR. lia. Qed.

Lemma ratio_ge_1 (a b : R) : 0 < b -> b <= a -> 1 <= a / b.
Proof.
  intros Hb Hab. unfold Rdiv.
  replace 1 with (b * / b) by (field; lra).
  apply Rmult_le_compat_r; [|assumption].
  left. now apply Rinv_0_lt_compat.
Qed.

(** A document frequency is at most the number of documents, so a weight
    of the table is at least 1. *)
Lemma idf_weight_ge_1 (N c : nat) : (c <= N)%nat -> 1 <= idf_weight N c.
Proof.
  intros H. unfold idf_weight.
  assert (0 <= ln (INR (N + 1) / INR (c + 1))); [|lra].
  apply ln_nonneg, ratio_ge_1; [apply INR_succ_pos|].
  apply le_INR. lia.
Qed.

Lemma idf_weight_all (N : nat) : idf_weight N N = 1.
Proof.
  unfold idf_weight. pose proof (INR_succ_pos N).
  replace (INR (N + 1) / INR (N + 1)) with 1 by (field; lra).
  rewrite ln_1. lra.
Qed.

Variable iter : list string -> list string.
Hypothesis iter_order : set_order iter.

Lemma vocabulary_eq (corpus : list string) :
  vocabulary iter corpus
  = map (fun '(t, c) => (t, idf_weight (List.length corpus) c))
        (df_loop iter (map tokenize corpus) []).
Proof.
  unfold vocabulary. rewrite document_frequencies_eq. simpl.
  apply idf_table_map, df_loop_NoDup. constructor.
Qed.

(** The table gives a term of the corpus the weight of its document
    frequency, and has no other term. *)
Lemma vocabulary_lookup (corpus : list string) (t : string) :
  dict_get (vocabulary iter corpus) t
  = match doc_count t (map tokenize corpus) with
    | O => None
    | S c => Some (idf_weight (List.length corpus) (S c))
    end.
Proof.
  rewrite vocabulary_eq, dict_get_map, (df_lookup iter iter_order).
  now destruct (doc_count t (map tokenize corpus)).
Qed.

Lemma vocabulary_keys (corpus : list string) (t : string) :
  In t (keys (vocabulary iter corpus)) <->
  exists toks, In toks (map tokenize corpus) /\ In t toks.
Proof.
  rewrite vocabulary_eq, keys_map, (df_loop_keys iter iter_order).
  simpl. tauto.
Qed.

Lemma vocabulary_NoDup (corpus : list string) :
  NoDup (keys (vocabulary iter corpus)).
Proof.
  rewrite vocabulary_eq, keys_map. apply df_loop_NoDup. constructor.
Qed.

Lemma vocabulary_ge_1 (corpus : list string) (t : string) (w : R) :
  dict_get (vocabulary iter corpus) t = Some w -> 1 <= w.
Proof.
  rewrite vocabulary_lookup.
  pose proof (doc_count_le t (map tokenize corpus)) as Hle.
  rewrite length_map in Hle.
  destruct (doc_count t (map tokenize corpus)); [discriminate|].
  intros [= <-]. now apply idf_weight_ge_1.
Qed.

End Idf.

(** C1. For every corpus of N documents and every iteration order of sets,
    the Vocabulary has exactly the terms that occur in at least one tokenized
    document, each once; a term with document frequency [c] (the number of
    documents that contain it) has the weight [1 + ln ((N + 1) / (c + 1))];
    a term in no document has no entry. *)
Theorem vocabulary_terms_and_weights
    (iter : list string -> list string) (corpus : list string) :
  set_order iter ->
  let N := List.length corpus in
  let docs := map tokenize corpus in
  let idf := vocabulary iter corpus in
  snd (document_frequencies iter corpus) = docs /\
  NoDup (keys idf) /\
  (forall t, In t (keys idf) <-> exists toks, In toks docs /\ In t toks) /\
  (forall t, In t (keys idf) ->
     dict_get idf t
     = Some (1 + ln (INR (N + 1) / INR (doc_count t docs + 1)))%R) /\
  (forall t, (forall toks, In toks docs -> ~ In t toks) ->
     dict_get idf t = None).
Proof.
  intros Hiter N docs idf. subst N docs idf.
  split; [now rewrite document_frequencies_eq|].
  split; [now apply vocabulary_NoDup|].
  split; [intros t; now apply vocabulary_keys|].
  split.
  - intros t Ht. apply (vocabulary_keys iter Hiter) in Ht.
    apply doc_count_pos in Ht. rewrite (vocabulary_lookup iter Hiter).
    destruct (doc_count t (map tokenize corpus)) as [|c]; [lia|].
    reflexivity.
  - intros t Ht. apply dict_get_None.
    rewrite (vocabulary_keys iter Hiter). intros (toks & H1 & H2).
    exact (Ht toks H1 H2).
Qed.

Lemma vocabulary_terms_and_weights_witness :
  set_order first_seen /\
  dict_get (vocabulary first_seen ["fever pain"; "fever cough"]) "pain"
  = Some (1 + ln (INR (2 + 1) / INR (1 + 1)))%R.
Proof.
  split; [exact first_seen_order|].
  refine (proj1 (proj2 (proj2 (proj2
    (vocabulary_terms_and_weights first_seen ["fever pain"; "fever cough"]
       first_seen_order)))) "pain" _).
  apply (vocabulary_keys first_seen first_seen_order).
  exists ["fever"; "pain"]. split; [now left | now right; left].
Defined.

(** C2, as the code has it.  Every weight of the Vocabulary is positive (it
    is at least 1), and a term that stands in every one of the N documents of
    a non-empty corpus has the weight [1 + ln ((N + 1) / (N + 1))], which is
    1; so for four documents that all contain "aspirin" the weight of
    "aspirin" is [1 + ln (5 / 5) = 1]. *)
Theorem vocabulary_positive
    (iter : list string -> list string) (corpus : list string) :
  set_order iter ->
  let N := List.length corpus in
  let docs := map tokenize corpus in
  let idf := vocabulary iter corpus in
  (forall t w, dict_get idf t = Some w -> (0 < w)%R) /\
  (corpus <> [] ->
   forall t, (forall toks, In toks docs -> In t toks) ->
     dict_get idf t = Some (1 + ln (INR (N + 1) / INR (N + 1)))%R /\
     (1 + ln (INR (N + 1) / INR (N + 1)) = 1)%R) /\
  (N = 4 ->
   (forall toks, In toks docs -> In "aspirin" toks) ->
   dict_get idf "aspirin" = Some (1 + ln (5 / 5))%R /\
   (1 + ln (5 / 5) = 1)%R).
Proof.
  intros Hiter N docs idf.
  assert (Hall : corpus <> [] ->
            forall t, (forall toks, In toks docs -> In t toks) ->
              dict_get idf t = Some (idf_weight N N)).
  { intros Hne t Ht. subst idf. rewrite (vocabulary_lookup iter Hiter).
    fold docs. rewrite (doc_count_all t docs Ht).
    unfold docs. rewrite length_map. fold N.
    destruct corpus; [congruence | reflexivity]. }
  split; [|split].
  - intros t w Hw. apply (vocabulary_ge_1 iter Hiter) in Hw. lra.
  - intros Hne t Ht. split.
    + exact (Hall Hne t Ht).
    + exact (idf_weight_all N).
  - intros HN Ht.
    assert (Hne : corpus <> []) by (intros ->; discriminate).
    rewrite (Hall Hne _ Ht), (idf_weight_all N).
    replace (5 / 5)%R with 1%R by lra. rewrite ln_1.
    split; [f_equal|]; lra.
Qed.

Lemma aspirin_in_all :
  forall toks, In toks (map tokenize aspirin_corpus) -> In "aspirin" toks.
Proof.
  intros toks H. simpl in H.
  repeat (destruct H as [<- | H]; [simpl; tauto|]). destruct H.
Qed.

Lemma vocabulary_positive_witness :
  set_order first_seen /\
  dict_get (vocabulary first_seen aspirin_corpus) "aspirin"
  = Some (1 + ln (5 / 5))%R.
Proof.
  split; [exact first_seen_order|].
  exact (proj1 (proj2 (proj2
    (vocabulary_positive first_seen aspirin_corpus first_seen_order))
    eq_refl aspirin_in_all)).
Defined.

(** C2, the claim as written fails: for the four documents that all contain
    "aspirin" the weight of "aspirin" is 1, which is not the
    [1 + ln (1 / (N + 1))] of the claim ([ln (1 / 5)] is negative). *)
Lemma aspirin_weight_not_as_claimed :
  dict_get (vocabulary first_seen aspirin_corpus) "aspirin" = Some 1%R /\
  dict_get (vocabulary first_seen aspirin_corpus) "aspirin"
  <> Some (1 + ln (1 / (INR (List.length aspirin_corpus) + 1)))%R.
Proof.
  assert (H : dict_get (vocabulary first_seen aspirin_corpus) "aspirin"
              = Some 1%R).
  { rewrite (vocabulary_lookup first_seen first_seen_order).
    change (doc_count "aspirin" (map tokenize aspirin_corpus)) with 4.
    change (List.length aspirin_corpus) with 4.
    cbv iota beta. now rewrite idf_weight_all. }
  split; [exact H|]. rewrite H. intros [= E].
  assert (Hneg : (ln (1 / (INR (List.length aspirin_corpus) + 1)) < 0)%R).
  { rewrite <- ln_1. apply ln_increasing; simpl; lra. }
  simpl in Hneg. lra.
Qed.

(** ** The document weighter: weights before normalization *)

Section RawWeights.

Local Open Scope R_scope.

Lemma fold_left_pointwise {A B : Type} (f g : A -> B -> A) (l : list B) :
  (forall a x, f a x = g a x) ->
  forall a, fold_left f l a = fold_left g l a.
Proof.
  intros H. induction l as [|x l IH]; intros a; simpl; [reflexivity|].
  now rewrite H, IH.
Qed.

(** A loop that sets the keys it does not skip. *)
Lemma fold_set_some {A V : Type} (h : string -> A -> option V)
    (l : list (string * A)) : forall acc : dict V,
  NoDup (keys acc ++ map fst l) ->
  fold_left (fun acc '(k, a) =>
               match h k a with
               | None => acc
               | Some v => dict_set acc k v
               end) l acc
  = acc ++ flat_map (fun '(k, a) =>
                       match h k a with
                       | None => []
                       | Some v => [(k, v)]
                       end) l.
Proof.
  induction l as [|[k a] l IH]; simpl; intros acc H.
  - now rewrite app_nil_r.
  - assert (Hk : ~ In k (keys acc)).
    { intros Hin. apply NoDup_remove_2 in H. apply H.
      apply in_or_app. now left. }
    assert (Hl : NoDup (keys acc ++ map fst l))
      by now apply NoDup_remove_1 in H.
    destruct (h k a) as [v|]; simpl.
    + rewrite dict_set_fresh by assumption. rewrite IH.
      * now rewrite <- app_assoc.
      * unfold keys. rewrite map_app. simpl. rewrite <- app_assoc. exact H.
    + now apply IH.
Qed.

Lemma flat_map_keys {A V : Type} (h : string -> A -> option V)
    (l : list (string * A)) (t : string) :
  In t (keys (flat_map (fun '(k, a) =>
                          match h k a with
                          | None => []
                          | Some v => [(k, v)]
                          end) l)) ->
  In t (map fst l).
Proof.
  induction l as [|[k a] l IH]; simpl; [tauto|].
  unfold keys. rewrite map_app, in_app_iff. intros [H | H].
  - destruct (h k a); simpl in H; tauto.
  - right. now apply IH.
Qed.

Lemma flat_map_keys_NoDup {A V : Type} (h : string -> A -> option V)
    (l : list (string * A)) :
  NoDup (map fst l) ->
  NoDup (keys (flat_map (fun '(k, a) =>
                           match h k a with
                           | None => []
                           | Some v => [(k, v)]
                           end) l)).
Proof.
  induction l as [|[k a] l IH]; simpl; intros H; [constructor|].
  inversion H as [|? ? Hk Hl]; subst.
  unfold keys. rewrite map_app. destruct (h k a); simpl.
  - constructor; [|now apply IH].
    intros Hin. apply Hk. now apply (flat_map_keys h l k).
  - now apply IH.
Qed.

Lemma flat_map_get {A V : Type} (h : string -> A -> option V)
    (l : list (string * A)) (t : string) :
  NoDup (map fst l) ->
  dict_get (flat_map (fun '(k, a) =>
                        match h k a with
                        | None => []
                        | Some v => [(k, v)]
                        end) l) t
  = match dict_get l t with
    | None => None
    | Some a => h t a
    end.
Proof.
  induction l as [|[k a] l IH]; simpl; intros H; [reflexivity|].
  inversion H as [|? ? Hk Hl]; subst.
  destruct (String.eqb k t) eqn:E.
  - apply String.eqb_eq in E. subst k.
    destruct (h t a) as [v|]; simpl.
    + now rewrite String.eqb_refl.
    + apply dict_get_None. intros Hin. apply Hk.
      now apply (flat_map_keys h l t).
  - destruct (h k a) as [v|]; simpl; [rewrite E|]; now apply IH.
Qed.

(** [Counter(toks)] counts the occurrences of each token. *)
Lemma counter_of_tokens (toks : list string) (t : string) :
  dict_get (counter_update [] toks) t
  = match term_count t toks with
    | O => None
    | S f => Some (S f)
    end.
Proof.
  pose proof (counter_update_get toks [] t) as Hget.
  pose proof (counter_update_keys toks [] t) as Hkeys.
  rewrite <- dict_get_In in Hkeys. unfold counter_get in Hget.
  simpl in *. unfold term_count.
  pose proof (count_occ_In string_dec toks t) as Hpos.
  destruct (dict_get (counter_update [] toks) t) as [n|].
  - subst n. assert (H : (count_occ string_dec toks t > 0)%nat).
    { apply Hpos. destruct Hkeys as [Hk _].
      destruct Hk as [[]|H]; [now eexists | exact H]. }
    destruct (count_occ string_dec toks t); [lia | reflexivity].
  - destruct (count_occ string_dec toks t); [reflexivity | discriminate].
Qed.

Lemma counter_of_tokens_NoDup (toks : list string) :
  NoDup (keys (counter_update [] toks)).
Proof. apply counter_update_NoDup. constructor. Qed.

Variable idf : dict R.

(** The weights before normalization, as the list of their items. *)
Lemma raw_weights_eq (toks : list string) :
  raw_weights idf toks
  = flat_map (fun '(term, f) =>
                match dict_get idf term with
                | None => []
                | Some i => [(term, sublinear_tf f * i)]
                end) (counter_update [] toks).
Proof.
  unfold raw_weights.
  pose (h := fun (term : string) (f : nat) =>
               option_map (fun i => sublinear_tf f * i) (dict_get idf term)).
  etransitivity.
  - apply fold_left_pointwise
      with (g := fun acc '(k, a) =>
                   match h k a with
                   | None => acc
                   | Some v => dict_set acc k v
                   end).
    intros acc [term f]. unfold h. now destruct (dict_get idf term).
  - rewrite (fold_set_some h) by (simpl; apply counter_of_tokens_NoDup).
    simpl. apply flat_map_ext. intros [term f]. unfold h.
    now destruct (dict_get idf term).
Qed.

End RawWeights.

Section RawWeightsLookup.

Local Open Scope R_scope.

Variable idf : dict R.

Lemma raw_weights_sel (toks : list string) :
  raw_weights idf toks
  = flat_map (fun '(term, f) =>
                match weight_of idf term f with
                | None => []
                | Some v => [(term, v)]
                end) (counter_update [] toks).
Proof.
  rewrite raw_weights_eq. apply flat_map_ext. intros [term f].
  unfold weight_of. now destruct (dict_get idf term).
Qed.

(** A token of the document that the Vocabulary has gets its raw weight;
    any other term gets no entry. *)
Lemma raw_weights_lookup (toks : list string) (t : string) :
  dict_get (raw_weights idf toks) t
  = match term_count t toks, dict_get idf t with
    | S f, Some i => Some (sublinear_tf (S f) * i)
    | _, _ => None
    end.
Proof.
  rewrite raw_weights_sel, flat_map_get by apply counter_of_tokens_NoDup.
  rewrite counter_of_tokens. unfold weight_of.
  destruct (term_count t toks); [reflexivity|].
  now destruct (dict_get idf t).
Qed.

Lemma raw_weights_NoDup (toks : list string) :
  NoDup (keys (raw_weights idf toks)).
Proof.
  rewrite raw_weights_sel.
  apply flat_map_keys_NoDup, counter_of_tokens_NoDup.
Qed.

Lemma term_count_pos (toks : list string) (t : string) :
  In t toks <-> (0 < term_count t toks)%nat.
Proof. unfold term_count. apply count_occ_In. Qed.

Lemma sublinear_tf_ge (f : nat) : (1 <= f)%nat -> 1 + ln 2 <= sublinear_tf f.
Proof.
  intros Hf. unfold sublinear_tf.
  assert (H2 : 2 <= INR (1 + f)).
  { change 2 with (INR 2). apply le_INR. lia. }
  destruct H2 as [H2 | <-]; [|lra].
  assert (ln 2 < ln (INR (1 + f))) by (apply ln_increasing; lra). lra.
Qed.

Lemma ln_2_pos : 0 < ln 2.
Proof. rewrite <- ln_1. apply ln_increasing; lra. Qed.

(** Every entry of the raw weights is the weight of a token of the
    document that the Vocabulary has. *)
Lemma raw_weights_entry (toks : list string) (t : string) (w : R) :
  In (t, w) (raw_weights idf toks) ->
  In t toks /\
  exists i, dict_get idf t = Some i
            /\ w = sublinear_tf (term_count t toks) * i
            /\ 1 + ln 2 <= sublinear_tf (term_count t toks).
Proof.
  intros Hin.
  apply (dict_get_NoDup _ _ _ (raw_weights_NoDup toks)) in Hin.
  rewrite raw_weights_lookup in Hin.
  destruct (term_count t toks) as [|f] eqn:Ef; [discriminate|].
  destruct (dict_get idf t) as [i|]; [|discriminate].
  injection Hin as <-. split.
  - apply term_count_pos. lia.
  - exists i. repeat split. apply sublinear_tf_ge. lia.
Qed.

End RawWeightsLookup.

(** ** The document weighter: L2 normalization *)

Section Normalization.

Local Open Scope R_scope.

Lemma fold_left_Rplus (l : list R) : forall a,
  fold_left Rplus l a = a + fold_left Rplus l 0.
Proof.
  induction l as [|x l IH]; intros a; simpl; [lra|].
  rewrite (IH (a + x)), (IH (0 + x)). lra.
Qed.

Lemma sum_squares_nil : sum_squares [] = 0.
Proof. reflexivity. Qed.

Lemma sum_squares_cons (v : R) (vs : list R) :
  sum_squares (v :: vs) = v * v + sum_squares vs.
Proof.
  unfold sum_squares. simpl. rewrite fold_left_Rplus. lra.
Qed.

Lemma sum_squares_nonneg (vs : list R) : 0 <= sum_squares vs.
Proof.
  induction vs as [|v vs IH]; [rewrite sum_squares_nil; lra|].
  rewrite sum_squares_cons. nra.
Qed.

Lemma sum_squares_pos (vs : list R) :
  vs <> [] -> Forall (fun v => v <> 0) vs -> 0 < sum_squares vs.
Proof.
  destruct vs as [|v vs]; [congruence|]. intros _ H.
  inversion H as [|? ? Hv _]; subst. rewrite sum_squares_cons.
  pose proof (sum_squares_nonneg vs). nra.
Qed.

Lemma sum_squares_scale (n : R) (vs : list R) :
  n <> 0 ->
  sum_squares (map (fun v => v / n) vs) = sum_squares vs / (n * n).
Proof.
  intros Hn. induction vs as [|v vs IH]; simpl.
  - rewrite sum_squares_nil. field. assumption.
  - rewrite !sum_squares_cons, IH. field. assumption.
Qed.

Lemma values_map {A B : Type} (g : A -> B) (l : dict A) :
  values (map (fun '(k, a) => (k, g a)) l) = map g (values l).
Proof.
  unfold values. rewrite !map_map. apply map_ext. now intros [k a].
Qed.

(** The norm [main] divides by is never 0. *)
Lemma l2_norm_pos (weights : dict R) : 0 < l2_norm weights.
Proof.
  unfold l2_norm.
  destruct (Req_EM_T (sqrt (sum_squares (values weights))) 0) as [E|E];
    [lra|].
  pose proof (sqrt_pos (sum_squares (values weights))). lra.
Qed.

Lemma l2_norm_nil : l2_norm [] = 1.
Proof.
  unfold l2_norm. simpl. rewrite sum_squares_nil, sqrt_0.
  destruct (Req_EM_T 0 0); [reflexivity | congruence].
Qed.

Lemma l2_norm_sqrt (weights : dict R) :
  0 < sum_squares (values weights) ->
  l2_norm weights = sqrt (sum_squares (values weights)).
Proof.
  intros H. unfold l2_norm. apply sqrt_lt_R0 in H.
  destruct (Req_EM_T (sqrt (sum_squares (values weights))) 0); [lra|].
  reflexivity.
Qed.

Lemma l2_normalize_eq (weights : dict R) :
  NoDup (keys weights) ->
  l2_normalize weights
  = map (fun '(t, v) => (t, v / l2_norm weights)) weights.
Proof.
  intros H. unfold l2_normalize.
  now rewrite (fold_set_items (fun _ v => v / l2_norm weights)).
Qed.

(** Dividing by the square root of a positive sum of squares leaves a
    vector of norm 1. *)
Lemma l2_normalize_unit (weights : dict R) :
  NoDup (keys weights) -> 0 < sum_squares (values weights) ->
  sqrt (sum_squares (values (l2_normalize weights))) = 1.
Proof.
  intros Hnd Hpos. rewrite l2_normalize_eq by assumption.
  rewrite (values_map (fun v => v / l2_norm weights)).
  pose proof (l2_norm_pos weights) as Hn.
  rewrite sum_squares_scale by lra.
  rewrite l2_norm_sqrt by assumption.
  rewrite sqrt_def by lra.
  rewrite Rdiv_diag by lra. apply sqrt_1.
Qed.

Lemma sublinear_tf_pos (f : nat) : 0 < sublinear_tf f.
Proof.
  unfold sublinear_tf.
  assert (0 <= ln (INR (1 + f))); [|lra].
  apply ln_nonneg. change 1 with (INR 1). apply le_INR. lia.
Qed.

(** The raw weights are empty exactly when no token of the document is in
    the Vocabulary. *)
Lemma raw_weights_nil (idf : dict R) (toks : list string) :
  raw_weights idf toks = [] <->
  forall t, In t toks -> dict_get idf t = None.
Proof.
  split.
  - intros E t Ht. pose proof (raw_weights_lookup idf toks t) as Hl.
    rewrite E in Hl. simpl in Hl. apply term_count_pos in Ht.
    destruct (term_count t toks); [lia|].
    destruct (dict_get idf t); [discriminate | reflexivity].
  - intros H. destruct (raw_weights idf toks) as [|[t w] raw] eqn:E;
      [reflexivity|].
    assert (Hin : In (t, w) (raw_weights idf toks)) by (rewrite E; now left).
    apply raw_weights_entry in Hin as (Ht & i & Hi & _).
    rewrite (H t Ht) in Hi. discriminate.
Qed.

Lemma raw_weights_nonzero (idf : dict R) (toks : list string) :
  (forall t i, dict_get idf t = Some i -> i <> 0) ->
  Forall (fun v => v <> 0) (values (raw_weights idf toks)).
Proof.
  intros Hidf. apply Forall_forall. intros v Hv.
  unfold values in Hv. apply in_map_iff in Hv as ([t w] & <- & Hin).
  simpl. apply raw_weights_entry in Hin as (_ & i & Hi & -> & _).
  pose proof (sublinear_tf_pos (term_count t toks)).
  apply Hidf in Hi. nra.
Qed.

End Normalization.

Lemma document_vector_eq (idf : dict R) (toks : list string) :
  document_vector idf toks
  = map (fun '(t, v) => (t, v / l2_norm (raw_weights idf toks))%R)
        (raw_weights idf toks).
Proof.
  unfold document_vector. apply l2_normalize_eq, raw_weights_NoDup.
Qed.

(** C3. For every tokenized document and every Vocabulary, the weights
    before normalization give each token of the document that the
    Vocabulary has the weight [(1 + ln (1 + f)) * idf(term)], [f] being the
    number of times the token stands in the document, once per term; a token
    the Vocabulary does not have gets no entry, in the raw weights and in the
    document vector, and so does a term that is not in the document.  The
    weighter is a total function: there is no input on which it fails. *)
Theorem weighter_raw_weights (idf : dict R) (toks : list string) :
  let raw := raw_weights idf toks in
  (forall t i, In t toks -> dict_get idf t = Some i ->
     dict_get raw t
     = Some ((1 + ln (INR (1 + term_count t toks))) * i)%R) /\
  (forall t, dict_get idf t = None ->
     dict_get raw t = None /\ dict_get (document_vector idf toks) t = None) /\
  (forall t, ~ In t toks -> dict_get raw t = None) /\
  NoDup (keys raw) /\
  keys (document_vector idf toks) = keys raw.
Proof.
  intros raw. subst raw.
  assert (Habsent : forall t, dict_get idf t = None ->
                      dict_get (raw_weights idf toks) t = None).
  { intros t Ht. rewrite raw_weights_lookup, Ht.
    now destruct (term_count t toks). }
  split; [|split; [|split; [|split]]].
  - intros t i Ht Hi. rewrite raw_weights_lookup, Hi.
    apply term_count_pos in Ht.
    destruct (term_count t toks) as [|f]; [lia | reflexivity].
  - intros t Ht. split; [now apply Habsent|].
    rewrite document_vector_eq.
    rewrite (dict_get_map (fun v => v / l2_norm (raw_weights idf toks))%R).
    now rewrite Habsent.
  - intros t Ht. rewrite raw_weights_lookup.
    destruct (term_count t toks) as [|f] eqn:E; [reflexivity|].
    exfalso. apply Ht, term_count_pos. lia.
  - apply raw_weights_NoDup.
  - rewrite document_vector_eq.
    apply (keys_map (fun v => v / l2_norm (raw_weights idf toks))%R).
Qed.

(** C4. For every Vocabulary (a table whose weights are not 0; the weights
    of a Vocabulary are positive) and every tokenized document: if no token
    of the document is in the Vocabulary, the document vector is the empty
    mapping and the norm divided by is 1, not 0; otherwise the norm is the
    square root of the sum of the squared raw weights, it is positive, and
    every raw weight is divided by it.  Every document vector that is not
    empty has [|sqrt (sum of squared weights) - 1| < 1e-9] (the norm is 1). *)
Theorem weighter_normalizes (idf : dict R) (toks : list string) :
  (forall t i, dict_get idf t = Some i -> i <> 0%R) ->
  let raw := raw_weights idf toks in
  let vec := document_vector idf toks in
  ((forall t, In t toks -> dict_get idf t = None) ->
     vec = [] /\ l2_norm raw = 1%R) /\
  ((exists t, In t toks /\ dict_get idf t <> None) ->
     (0 < sqrt (sum_squares (values raw)))%R /\
     vec = map (fun '(t, w) =>
                  (t, w / sqrt (sum_squares (values raw)))%R) raw /\
     vec <> []) /\
  (vec <> [] ->
     (Rabs (sqrt (sum_squares (values vec)) - 1) < 1 / 10 ^ 9)%R).
Proof.
  intros Hidf raw vec.
  assert (Hpos : raw <> [] -> (0 < sum_squares (values raw))%R).
  { intros Hne. apply sum_squares_pos.
    - unfold values. destruct raw; [congruence | discriminate].
    - now apply raw_weights_nonzero. }
  assert (Hvec : vec = map (fun '(t, v) => (t, v / l2_norm raw)%R) raw)
    by apply document_vector_eq.
  split; [|split].
  - intros Hnone. apply (proj2 (raw_weights_nil idf toks)) in Hnone.
    fold raw in Hnone. rewrite Hvec, Hnone. split; [reflexivity | apply l2_norm_nil].
  - intros (t & Ht & Hi).
    assert (Hne : raw <> []).
    { intros E. exact (Hi (proj1 (raw_weights_nil idf toks) E t Ht)). }
    specialize (Hpos Hne). split; [now apply sqrt_lt_R0|].
    rewrite Hvec, (l2_norm_sqrt raw Hpos). split; [reflexivity|].
    destruct raw; [congruence | discriminate].
  - intros Hne.
    assert (Hraw : raw <> []).
    { intros E. apply Hne. now rewrite Hvec, E. }
    unfold vec, document_vector.
    rewrite l2_normalize_unit;
      [| apply raw_weights_NoDup | now apply Hpos].
    replace (1 - 1)%R with 0%R by lra. rewrite Rabs_R0.
    apply Rdiv_lt_0_compat; [lra|]. apply pow_lt. lra.
Qed.

Lemma weighter_normalizes_witness :
  (forall t i, dict_get [("fever", 2%R)] t = Some i -> i <> 0%R) /\
  (Rabs (sqrt (sum_squares
                 (values (document_vector [("fever", 2%R)] ["fever"; "pain"])))
         - 1) < 1 / 10 ^ 9)%R.
Proof.
  assert (H : forall t i, dict_get [("fever", 2%R)] t = Some i -> i <> 0%R).
  { intros t i. unfold dict_get.
    destruct (String.eqb "fever" t); intros [= <-]. lra. }
  split; [exact H|].
  destruct (weighter_normalizes [("fever", 2%R)] ["fever"; "pain"] H)
    as (_ & Hsome & Hunit).
  apply Hunit, Hsome. exists "fever". split; [now left | discriminate].
Defined.

(** ** The whole run *)

Section Run.

Local Open Scope R_scope.

Lemma train_eq (iter : list string -> list string) (st : corpus_state) :
  train iter st
  = mkModel (List.length (corpus st))
      (vocabulary iter (corpus st))
      (build_docs_tfidf (vocabulary iter (corpus st))
         (map tokenize (corpus st)) (names st)).
Proof.
  unfold train, vocabulary. now rewrite document_frequencies_eq.
Qed.

(** How [main] ends: with an error and the files as they were when the
    corpus is empty, with the three artifacts saved otherwise. *)
Lemma main_eq (rt : runtime) (drugs : list Drug) (fs : files) :
  main rt drugs fs
  = match drugs, corpus (build_corpus drugs) with
    | [], _ => (fs, Raised no_rows_found)
    | _ :: _, [] => (fs, Raised all_entries_empty)
    | _ :: _, _ :: _ =>
        (save_artifacts rt (train (set_iter rt) (build_corpus drugs)) fs, Done)
    end.
Proof.
  unfold main. destruct drugs as [|d ds]; [reflexivity|].
  now destruct (corpus (build_corpus (d :: ds))).
Qed.

Lemma main_done (rt : runtime) (drugs : list Drug) (fs : files) :
  snd (main rt drugs fs) = Done ->
  fst (main rt drugs fs)
  = save_artifacts rt (train (set_iter rt) (build_corpus drugs)) fs.
Proof.
  rewrite main_eq. destruct drugs as [|d ds]; [discriminate|].
  now destruct (corpus (build_corpus (d :: ds))).
Qed.

Lemma saved_vocab (rt : runtime) (m : model) (fs : files) :
  dict_get (save_artifacts rt m fs) VOCAB_PKL = Some (PickledVocab (model_idf m)).
Proof.
  unfold save_artifacts. rewrite !dict_get_set. reflexivity.
Qed.

Lemma saved_docs (rt : runtime) (m : model) (fs : files) :
  dict_get (save_artifacts rt m fs) DOCS_PKL = Some (PickledDocs (model_docs m)).
Proof.
  unfold save_artifacts. rewrite !dict_get_set. reflexivity.
Qed.

Lemma saved_meta (rt : runtime) (m : model) (fs : files) :
  dict_get (save_artifacts rt m fs) META_JSON
  = Some (JsonMeta
            (mkMeta (utcnow_z rt) (model_N m) (List.length (model_idf m))
               "Lightweight TF-IDF recommender artifacts"
               "PostgreSQL: drugs table"
               (this_file rt))).
Proof.
  unfold save_artifacts. rewrite !dict_get_set. reflexivity.
Qed.

(** An entry of [docs_tfidf] is the vector of a document of the corpus. *)
Lemma build_docs_tfidf_In (idf : dict R) (docs : list (list string))
    (nms : list string) (e : doc_entry) :
  In e (build_docs_tfidf idf docs nms) ->
  exists toks, In toks docs /\ In (doc_name e) nms
               /\ doc_weights e = document_vector idf toks.
Proof.
  unfold build_docs_tfidf. intros H.
  apply in_map_iff in H as ([toks nm] & <- & Hin).
  exists toks. simpl.
  split; [now apply in_combine_l in Hin|].
  split; [now apply in_combine_r in Hin | reflexivity].
Qed.

(** With the weights of the table at least 1, a raw weight is at least
    [1 + ln 2] and a weight of the document vector is positive. *)
Lemma document_vector_positive (idf : dict R) (toks : list string) :
  (forall t i, dict_get idf t = Some i -> 1 <= i) ->
  (forall t r, In (t, r) (raw_weights idf toks) -> 1 + ln 2 <= r) /\
  (forall t w, In (t, w) (document_vector idf toks) -> 0 < w).
Proof.
  intros Hidf. pose proof ln_2_pos as Hln.
  assert (Hraw : forall t r, In (t, r) (raw_weights idf toks) ->
                             1 + ln 2 <= r).
  { intros t r Hin.
    apply raw_weights_entry in Hin as (_ & i & Hi & -> & Hf).
    apply Hidf in Hi. nra. }
  split; [exact Hraw|].
  intros t w Hin. rewrite document_vector_eq in Hin.
  apply in_map_iff in Hin as ([t' r] & [= -> <-] & Hin).
  apply Hraw in Hin. apply Rdiv_lt_0_compat; [lra | apply l2_norm_pos].
Qed.

End Run.

(** C10. When [main] succeeds, every weight of every document vector it
    saves is positive: a document frequency is at most the number of
    documents, so every weight of the saved Vocabulary is at least 1; a
    token of a document stands in it at least once, so every raw weight is
    at least [1 + ln 2]; and the norm divided by is positive. *)
Theorem saved_weights_positive
    (rt : runtime) (drugs : list Drug) (fs : files) :
  set_order (set_iter rt) ->
  snd (main rt drugs fs) = Done ->
  let docs_toks := map tokenize (corpus (build_corpus drugs)) in
  exists idf docs,
    dict_get (fst (main rt drugs fs)) VOCAB_PKL = Some (PickledVocab idf) /\
    dict_get (fst (main rt drugs fs)) DOCS_PKL = Some (PickledDocs docs) /\
    (forall t, doc_count t docs_toks <= List.length docs_toks) /\
    (forall t i, dict_get idf t = Some i -> (1 <= i)%R) /\
    (forall e, In e docs ->
       exists toks,
         In toks docs_toks /\
         doc_weights e = document_vector idf toks /\
         (forall t, In t toks -> 1 <= term_count t toks) /\
         (forall t r, In (t, r) (raw_weights idf toks) -> (1 + ln 2 <= r)%R) /\
         (0 < l2_norm (raw_weights idf toks))%R /\
         (forall t w, In (t, w) (doc_weights e) -> (0 < w)%R)).
Proof.
  intros Hiter Hdone docs_toks. rewrite (main_done rt drugs fs Hdone).
  rewrite saved_vocab, saved_docs, train_eq. cbn [model_idf model_docs].
  set (idf := vocabulary (set_iter rt) (corpus (build_corpus drugs))).
  assert (Hidf : forall t i, dict_get idf t = Some i -> (1 <= i)%R).
  { intros t i. now apply vocabulary_ge_1. }
  exists idf. eexists. split; [reflexivity|]. split; [reflexivity|].
  split; [intros t; apply doc_count_le|]. split; [exact Hidf|].
  intros e He. apply build_docs_tfidf_In in He as (toks & Htoks & _ & Hw).
  exists toks. split; [exact Htoks|]. split; [exact Hw|].
  split; [intros t Ht; now apply term_count_pos|].
  destruct (document_vector_positive idf toks Hidf) as [Hraw Hvec].
  split; [exact Hraw|]. split; [apply l2_norm_pos|].
  intros t w Hin. rewrite Hw in Hin. now apply (Hvec t).
Qed.

Lemma saved_weights_positive_witness :
  set_order (set_iter run_first) /\
  snd (main run_first three_records []) = Done /\
  exists idf docs,
    dict_get (fst (main run_first three_records [])) VOCAB_PKL
    = Some (PickledVocab idf) /\
    dict_get (fst (main run_first three_records [])) DOCS_PKL
    = Some (PickledDocs docs) /\
    (forall t i, dict_get idf t = Some i -> (1 <= i)%R) /\
    (forall e, In e docs ->
       forall t w, In (t, w) (doc_weights e) -> (0 < w)%R).
Proof.
  split; [exact first_seen_order|]. split; [reflexivity|].
  destruct (saved_weights_positive run_first three_records []
              first_seen_order eq_refl)
    as (idf & docs & Hv & Hd & _ & Hidf & Hdocs).
  exists idf, docs. repeat split; try assumption.
  intros e He. destruct (Hdocs e He) as (toks & _ & _ & _ & _ & _ & H).
  exact H.
Defined.

(** ** Failure on an empty corpus *)

Section EmptyCorpus.

Lemma all_fields_empty_name (d : Drug) :
  all_fields_empty d = true -> record_name d = EmptyString.
Proof.
  unfold all_fields_empty. simpl. intros H.
  apply andb_true_iff in H as [H _]. apply is_empty_true in H.
  rewrite record_name_strip, H. reflexivity.
Qed.

(** A record without a name leaves the state of the first loop as it is. *)
Lemma corpus_step_no_name (st : corpus_state) (d : Drug) :
  record_name d = EmptyString -> corpus_step st d = st.
Proof. intros H. rewrite corpus_step_eq, H. reflexivity. Qed.

Lemma build_corpus_drop (pre post : list Drug) (d : Drug) :
  record_name d = EmptyString ->
  build_corpus (pre ++ d :: post) = build_corpus (pre ++ post).
Proof.
  intros H. unfold build_corpus. rewrite !fold_left_app. simpl.
  now rewrite corpus_step_no_name.
Qed.

Lemma main_raises (rt : runtime) (drugs : list Drug) (fs : files) :
  corpus (build_corpus drugs) = [] ->
  main rt drugs fs
  = (fs, Raised (match drugs with
                 | [] => no_rows_found
                 | _ :: _ => all_entries_empty
                 end)).
Proof.
  intros H. rewrite main_eq. destruct drugs; [reflexivity|]. now rewrite H.
Qed.

Lemma main_succeeds (rt : runtime) (drugs : list Drug) (fs : files) :
  corpus (build_corpus drugs) <> [] -> snd (main rt drugs fs) = Done.
Proof.
  intros H. rewrite main_eq. destruct drugs as [|d ds].
  - now contradiction H.
  - destruct (corpus (build_corpus (d :: ds))); [congruence | reflexivity].
Qed.

End EmptyCorpus.

(** C8, as the code has it.  [main] fails exactly when no document survives
    the corpus builder,
    with a [RuntimeError] (the only error the build raises), and then the
    files of the artifact directory are as they were: no artifact is
    touched.  The error is the one of an empty corpus ("All drug entries
    were empty after cleaning") when the table has rows; a table without
    rows has the message "No rows found in drugs table".  A record with
    every field null or empty is left out of the corpus and changes nothing
    else: the run on the other records, when there are any, ends the same
    way, so such a record raises no error by itself. *)
Theorem empty_corpus_fails
    (rt : runtime) (drugs : list Drug) (fs : files) :
  (corpus (build_corpus drugs) = [] <->
   exists msg, snd (main rt drugs fs) = Raised (RuntimeError msg)) /\
  (corpus (build_corpus drugs) <> [] <-> snd (main rt drugs fs) = Done) /\
  (forall e, snd (main rt drugs fs) = Raised e ->
     fst (main rt drugs fs) = fs) /\
  (snd (main rt drugs fs) = Raised all_entries_empty <->
   drugs <> [] /\ corpus (build_corpus drugs) = []) /\
  (snd (main rt drugs fs) = Raised no_rows_found <-> drugs = []) /\
  (forall pre d post,
     drugs = pre ++ d :: post -> all_fields_empty d = true ->
     build_corpus drugs = build_corpus (pre ++ post) /\
     (pre ++ post <> [] -> main rt drugs fs = main rt (pre ++ post) fs)).
Proof.
  assert (Hne : no_rows_found <> all_entries_empty) by discriminate.
  assert (Hcases :
            (corpus (build_corpus drugs) = [] /\
             main rt drugs fs
             = (fs, Raised (match drugs with
                            | [] => no_rows_found
                            | _ :: _ => all_entries_empty
                            end)))
            \/ (corpus (build_corpus drugs) <> [] /\
                snd (main rt drugs fs) = Done)).
  { destruct (corpus (build_corpus drugs)) eqn:Ec.
    - left. split; [reflexivity | now apply main_raises].
    - right. assert (H : corpus (build_corpus drugs) <> [])
        by (rewrite Ec; discriminate).
      split; [rewrite <- Ec; exact H | now apply main_succeeds]. }
  split; [|split; [|split; [|split; [|split]]]].
  - destruct Hcases as [[Hc Hm] | [Hc Hm]].
    + split; [|intros _; exact Hc]. intros _. rewrite Hm.
      destruct drugs; simpl; eexists; reflexivity.
    + split; [congruence|]. intros (msg & H). congruence.
  - destruct Hcases as [[Hc Hm] | [Hc Hm]].
    + split; [congruence|]. rewrite Hm. discriminate.
    + split; [intros _; exact Hm | intros _; exact Hc].
  - intros e He. destruct Hcases as [[Hc Hm] | [Hc Hm]].
    + now rewrite Hm.
    + congruence.
  - destruct Hcases as [[Hc Hm] | [Hc Hm]].
    + rewrite Hm. simpl. destruct drugs.
      * split; [intros [= H]; congruence | intros [H _]; congruence].
      * split; [intros _; split; [discriminate | exact Hc] | reflexivity].
    + split; [congruence | intros [_ H]; congruence].
  - destruct Hcases as [[Hc Hm] | [Hc Hm]].
    + rewrite Hm. simpl. destruct drugs.
      * split; reflexivity.
      * split; [intros [= H]; congruence | discriminate].
    + split; [congruence|]. intros ->. now contradiction Hc.
  - intros pre d post -> Hd.
    assert (E : build_corpus (pre ++ d :: post) = build_corpus (pre ++ post))
      by now apply build_corpus_drop, all_fields_empty_name.
    split; [exact E|]. intros Hpp. rewrite !main_eq.
    destruct pre as [|p pre]; simpl in *.
    + destruct post; [now contradiction Hpp | now rewrite E].
    + now rewrite E.
Qed.

(** C8, the claim as written fails for a table without rows: no document
    survives the corpus builder, and the error [main] raises is not the one
    of an empty corpus (line 90) but "No rows found in drugs table" (line
    65), raised before the corpus loop is entered. *)
Lemma empty_table_raises_no_rows :
  corpus (build_corpus []) = [] /\
  main run_first [] [] = ([], Raised no_rows_found) /\
  snd (main run_first [] []) <> Raised all_entries_empty /\
  no_rows_found <> all_entries_empty.
Proof.
  split; [reflexivity|]. split; [reflexivity|].
  split; simpl; intros H; discriminate H.
Qed.

Example null_record_alone (rt : runtime) (fs : files) :
  main rt [null_drug] fs = (fs, Raised all_entries_empty).
Proof. reflexivity. Qed.

Example null_record_among_others (rt : runtime) (fs : files) :
  snd (main rt (null_drug :: three_records) fs) = Done /\
  names (build_corpus (null_drug :: three_records)) = ["A"; "B"; "C"].
Proof. split; reflexivity. Qed.

(** ** Two runs on the same records *)

Section TwoRuns.

Local Open Scope R_scope.

(** The weighter reads the Vocabulary through its lookups only. *)
Lemma raw_weights_ext (idf1 idf2 : dict R) (toks : list string) :
  (forall t, dict_get idf1 t = dict_get idf2 t) ->
  raw_weights idf1 toks = raw_weights idf2 toks.
Proof.
  intros H. rewrite !raw_weights_eq. apply flat_map_ext.
  intros [term f]. now rewrite H.
Qed.

Lemma build_docs_tfidf_ext (idf1 idf2 : dict R)
    (docs : list (list string)) (nms : list string) :
  (forall t, dict_get idf1 t = dict_get idf2 t) ->
  build_docs_tfidf idf1 docs nms = build_docs_tfidf idf2 docs nms.
Proof.
  intros H. unfold build_docs_tfidf. apply map_ext. intros [toks nm].
  unfold document_vector. now rewrite (raw_weights_ext idf1 idf2).
Qed.

Lemma dict_NoDup {V : Type} (d : dict V) : NoDup (keys d) -> NoDup d.
Proof. unfold keys. apply NoDup_map_inv. Qed.

(** Two dictionaries with the same lookups have the same items, in some
    order. *)
Lemma dict_same_lookups {V : Type} (d1 d2 : dict V) :
  NoDup (keys d1) -> NoDup (keys d2) ->
  (forall t, dict_get d1 t = dict_get d2 t) ->
  Permutation d1 d2.
Proof.
  intros H1 H2 H.
  apply NoDup_Permutation; [now apply dict_NoDup | now apply dict_NoDup |].
  intros [t v]. split; intros Hin.
  - apply dict_get_value. rewrite <- H. now apply dict_get_NoDup.
  - apply dict_get_value. rewrite H. now apply dict_get_NoDup.
Qed.

Lemma df_loop_ext (iter1 iter2 : list string -> list string)
    (docs : list (list string)) (c0 : Counter) :
  (forall l, iter1 l = iter2 l) -> df_loop iter1 docs c0 = df_loop iter2 docs c0.
Proof.
  intros H. unfold df_loop. apply fold_left_pointwise.
  intros c toks. now rewrite H.
Qed.

Variables iter1 iter2 : list string -> list string.
Hypothesis order1 : set_order iter1.
Hypothesis order2 : set_order iter2.

Lemma vocabulary_same_lookups (corpus : list string) (t : string) :
  dict_get (vocabulary iter1 corpus) t = dict_get (vocabulary iter2 corpus) t.
Proof.
  now rewrite (vocabulary_lookup iter1 order1), (vocabulary_lookup iter2 order2).
Qed.

Lemma train_same (st : corpus_state) :
  model_N (train iter1 st) = model_N (train iter2 st) /\
  model_docs (train iter1 st) = model_docs (train iter2 st) /\
  (forall t, dict_get (model_idf (train iter1 st)) t
             = dict_get (model_idf (train iter2 st)) t) /\
  Permutation (model_idf (train iter1 st)) (model_idf (train iter2 st)).
Proof.
  rewrite !train_eq. simpl.
  split; [reflexivity|]. split; [|split].
  - apply build_docs_tfidf_ext, vocabulary_same_lookups.
  - apply vocabulary_same_lookups.
  - apply dict_same_lookups.
    + now apply vocabulary_NoDup.
    + now apply vocabulary_NoDup.
    + apply vocabulary_same_lookups.
Qed.

End TwoRuns.

(** C9, as the code has it.  Two runs on the same records in the same
    order, whatever the order of sets, the clock and the files before the
    run, end the same way, and when they succeed they save the same
    document vectors, entry for entry, and Vocabularies with the same terms
    and the same weights: the two tables are equal as mappings and have the
    same items in some order.  The metadata agree on the counts, the notes
    and the source.  When the two runs iterate sets in the same order, the
    Vocabulary artifacts are the same. *)
Theorem runs_agree
    (rt1 rt2 : runtime) (drugs : list Drug) (fs1 fs2 : files) :
  set_order (set_iter rt1) -> set_order (set_iter rt2) ->
  snd (main rt1 drugs fs1) = snd (main rt2 drugs fs2) /\
  (snd (main rt1 drugs fs1) = Done ->
   exists idf1 idf2 docs meta1 meta2,
     dict_get (fst (main rt1 drugs fs1)) VOCAB_PKL = Some (PickledVocab idf1) /\
     dict_get (fst (main rt2 drugs fs2)) VOCAB_PKL = Some (PickledVocab idf2) /\
     dict_get (fst (main rt1 drugs fs1)) DOCS_PKL = Some (PickledDocs docs) /\
     dict_get (fst (main rt2 drugs fs2)) DOCS_PKL = Some (PickledDocs docs) /\
     dict_get (fst (main rt1 drugs fs1)) META_JSON = Some (JsonMeta meta1) /\
     dict_get (fst (main rt2 drugs fs2)) META_JSON = Some (JsonMeta meta2) /\
     (forall t, dict_get idf1 t = dict_get idf2 t) /\
     Permutation idf1 idf2 /\
     ((forall l, set_iter rt1 l = set_iter rt2 l) -> idf1 = idf2) /\
     num_docs meta1 = num_docs meta2 /\
     num_terms meta1 = num_terms meta2 /\
     notes meta1 = notes meta2 /\
     source meta1 = source meta2 /\
     built_at meta1 = utcnow_z rt1 /\ built_at meta2 = utcnow_z rt2).
Proof.
  intros H1 H2.
  assert (Hsnd : snd (main rt1 drugs fs1) = snd (main rt2 drugs fs2)).
  { rewrite !main_eq. destruct drugs as [|d ds]; [reflexivity|].
    now destruct (corpus (build_corpus (d :: ds))). }
  split; [exact Hsnd|]. intros Hdone1.
  assert (Hdone2 : snd (main rt2 drugs fs2) = Done) by congruence.
  rewrite (main_done rt1 drugs fs1 Hdone1), (main_done rt2 drugs fs2 Hdone2).
  destruct (train_same (set_iter rt1) (set_iter rt2) H1 H2 (build_corpus drugs))
    as (HN & Hdocs & Hget & Hperm).
  rewrite !saved_vocab, !saved_docs, !saved_meta, Hdocs.
  do 5 eexists. do 6 (split; [reflexivity|]).
  split; [exact Hget|]. split; [exact Hperm|].
  split.
  - intros Hiter. rewrite !train_eq. simpl. rewrite !vocabulary_eq.
    now rewrite (df_loop_ext _ _ _ _ Hiter).
  - simpl. split; [exact HN|].
    split; [now apply Permutation_length | repeat split].
Qed.

Lemma runs_agree_witness :
  set_order (set_iter run_first) /\ set_order (set_iter run_last) /\
  snd (main run_first three_records []) = snd (main run_last three_records []).
Proof.
  split; [exact first_seen_order|]. split; [exact last_seen_order|].
  exact (proj1 (runs_agree run_first run_last three_records [] []
                  first_seen_order last_seen_order)).
Defined.

(** C9, the claim as written fails for the Vocabulary artifact: the two runs
    [run_first] and [run_last] read the same three records, and the tables
    they save list the terms in different orders. *)
Lemma vocabulary_order_differs :
  snd (main run_first three_records []) = Done /\
  snd (main run_last three_records []) = Done /\
  dict_get (fst (main run_first three_records [])) VOCAB_PKL
  <> dict_get (fst (main run_last three_records [])) VOCAB_PKL.
Proof.
  split; [reflexivity|]. split; [reflexivity|].
  rewrite (main_done run_first three_records [] eq_refl).
  rewrite (main_done run_last three_records [] eq_refl).
  rewrite !saved_vocab, !train_eq. cbn [model_idf].
  set (texts := corpus (build_corpus three_records)).
  intros E.
  assert (K : keys (vocabulary first_seen texts)
              = keys (vocabulary last_seen texts)).
  { exact (f_equal (fun o => match o with
                             | Some (PickledVocab d) => keys d
                             | _ => []
                             end) E). }
  rewrite !vocabulary_eq in K.
  rewrite !(keys_map (fun c => idf_weight _ c)) in K.
  vm_compute in K. discriminate K.
Qed.

Example vocabulary_order_first :
  keys (vocabulary first_seen (corpus (build_corpus three_records)))
  = ["a"; "fever"; "pain"; "b"; "cough"; "c"].
Proof.
  rewrite vocabulary_eq, (keys_map (fun c => idf_weight _ c)). reflexivity.
Qed.

Example vocabulary_order_last :
  keys (vocabulary last_seen (corpus (build_corpus three_records)))
  = ["pain"; "fever"; "a"; "cough"; "b"; "c"].
Proof.
  rewrite vocabulary_eq, (keys_map (fun c => idf_weight _ c)). reflexivity.
Qed.

(** ** The end-to-end scenario *)

Section Scenario.

Local Open Scope R_scope.

Lemma counter_three (k1 k2 k3 : string) :
  String.eqb k1 k2 = false -> String.eqb k1 k3 = false ->
  String.eqb k2 k3 = false ->
  counter_update [] [k1; k2; k3] = [(k1, 1%nat); (k2, 1%nat); (k3, 1%nat)].
Proof.
  intros H12 H13 H23. unfold counter_update, counter_get.
  cbn [fold_left dict_get dict_set]. rewrite H12.
  cbn [dict_get dict_set]. rewrite H13, H23.
  cbn [dict_get dict_set]. rewrite ?H13, ?H23. reflexivity.
Qed.

Lemma sublinear_tf_1 : sublinear_tf 1 = 1 + ln 2.
Proof. unfold sublinear_tf. simpl INR. now replace (1 + 1) with 2 by lra. Qed.

(** The vector of a document of three distinct tokens. *)
Lemma document_vector_three (idf : dict R) (k1 k2 k3 : string) (i1 i2 i3 : R) :
  String.eqb k1 k2 = false -> String.eqb k1 k3 = false ->
  String.eqb k2 k3 = false ->
  dict_get idf k1 = Some i1 -> dict_get idf k2 = Some i2 ->
  dict_get idf k3 = Some i3 -> 0 < i1 ->
  let r1 := (1 + ln 2) * i1 in
  let r2 := (1 + ln 2) * i2 in
  let r3 := (1 + ln 2) * i3 in
  let n := sqrt (r1 * r1 + r2 * r2 + r3 * r3) in
  raw_weights idf [k1; k2; k3] = [(k1, r1); (k2, r2); (k3, r3)] /\
  document_vector idf [k1; k2; k3] = [(k1, r1 / n); (k2, r2 / n); (k3, r3 / n)].
Proof.
  intros H12 H13 H23 G1 G2 G3 Hi1 r1 r2 r3 n.
  assert (Hraw : raw_weights idf [k1; k2; k3] = [(k1, r1); (k2, r2); (k3, r3)]).
  { rewrite raw_weights_eq, counter_three by assumption. simpl.
    rewrite G1, G2, G3, sublinear_tf_1. reflexivity. }
  split; [exact Hraw|].
  rewrite document_vector_eq, Hraw.
  assert (Hsum : sum_squares (values [(k1, r1); (k2, r2); (k3, r3)])
                 = r1 * r1 + r2 * r2 + r3 * r3).
  { simpl. rewrite !sum_squares_cons, sum_squares_nil. ring. }
  assert (Hpos : 0 < r1 * r1 + r2 * r2 + r3 * r3).
  { pose proof ln_2_pos. assert (0 < r1) by (unfold r1; nra). nra. }
  rewrite l2_norm_sqrt by (rewrite Hsum; exact Hpos).
  rewrite Hsum. reflexivity.
Qed.

Lemma idf_weight_3_2 : idf_weight 3 2 = 1 + ln (4 / 3).
Proof.
  unfold idf_weight. simpl INR.
  now replace ((1 + 1 + 1 + 1) / (1 + 1 + 1)) with (4 / 3) by lra.
Qed.

Lemma idf_weight_3_1 : idf_weight 3 1 = 1 + ln (4 / 2).
Proof.
  unfold idf_weight. simpl INR.
  now replace ((1 + 1 + 1 + 1) / (1 + 1)) with (4 / 2) by lra.
Qed.

Lemma scenario_name_weight_pos : 0 < scenario_name_weight.
Proof.
  unfold scenario_name_weight. pose proof ln_2_pos.
  replace (4 / 2) with 2 by lra. nra.
Qed.

Lemma scenario_descr_weight_pos : 0 < scenario_descr_weight.
Proof.
  unfold scenario_descr_weight. pose proof ln_2_pos.
  assert (0 < ln (4 / 3)) by (rewrite <- ln_1; apply ln_increasing; lra).
  nra.
Qed.

Lemma scenario_norm_sq :
  scenario_norm * scenario_norm
  = scenario_name_weight * scenario_name_weight
    + scenario_descr_weight * scenario_descr_weight
    + scenario_descr_weight * scenario_descr_weight.
Proof.
  unfold scenario_norm. apply sqrt_def.
  pose proof scenario_name_weight_pos. pose proof scenario_descr_weight_pos.
  nra.
Qed.

Lemma scenario_norm_pos : 0 < scenario_norm.
Proof.
  unfold scenario_norm. apply sqrt_lt_R0.
  pose proof scenario_name_weight_pos. pose proof scenario_descr_weight_pos.
  nra.
Qed.

(** The weight of a term of a description is not [1 / sqrt 2]: the letter
    of the name takes its part of the norm. *)
Lemma scenario_descr_not_half :
  scenario_descr_weight / scenario_norm <> 1 / sqrt 2.
Proof.
  intros E.
  pose proof scenario_norm_pos as Hn. pose proof scenario_norm_sq as Hsq.
  pose proof scenario_name_weight_pos as Hw.
  assert (H2 : 0 < sqrt 2) by (apply sqrt_lt_R0; lra).
  assert (H22 : sqrt 2 * sqrt 2 = 2) by (apply sqrt_def; lra).
  assert (K : scenario_descr_weight * sqrt 2 = scenario_norm).
  { replace scenario_descr_weight
      with (scenario_descr_weight / scenario_norm * scenario_norm)
      by (field; lra).
    rewrite E. field. lra. }
  assert (K2 : scenario_descr_weight * scenario_descr_weight * 2
               = scenario_norm * scenario_norm).
  { rewrite <- K at 1 2. nra. }
  nra.
Qed.

End Scenario.

Section ScenarioModel.

Local Open Scope R_scope.

Variable iter : list string -> list string.
Hypothesis iter_order : set_order iter.

Lemma scenario_corpus :
  build_corpus three_records
  = mkCorpus scenario_texts ["A"; "B"; "C"] ["c"; "b"; "a"].
Proof. reflexivity. Qed.

Lemma scenario_tokens :
  map tokenize scenario_texts
  = [["a"; "fever"; "pain"]; ["b"; "fever"; "cough"]; ["c"; "cough"; "pain"]].
Proof. reflexivity. Qed.

Lemma scenario_idf_descr (t : string) :
  In t ["fever"; "pain"; "cough"] ->
  doc_count t (map tokenize scenario_texts) = 2%nat /\
  dict_get (vocabulary iter scenario_texts) t = Some (1 + ln (4 / 3)).
Proof.
  intros Ht. rewrite (vocabulary_lookup iter iter_order).
  rewrite <- idf_weight_3_2.
  destruct Ht as [<- | [<- | [<- | []]]]; split; reflexivity.
Qed.

Lemma scenario_idf_name (t : string) :
  In t ["a"; "b"; "c"] ->
  doc_count t (map tokenize scenario_texts) = 1%nat /\
  dict_get (vocabulary iter scenario_texts) t = Some (1 + ln (4 / 2)).
Proof.
  intros Ht. rewrite (vocabulary_lookup iter iter_order).
  rewrite <- idf_weight_3_1.
  destruct Ht as [<- | [<- | [<- | []]]]; split; reflexivity.
Qed.

Lemma scenario_keys (t : string) :
  In t (keys (vocabulary iter scenario_texts)) <-> In t ["a"; "fever"; "pain"; "b"; "cough"; "c"].
Proof.
  rewrite (vocabulary_keys iter iter_order), scenario_tokens.
  split.
  - intros (toks & [<- | [<- | [<- | []]]] & Ht); simpl in *; tauto.
  - intros [<- | [<- | [<- | [<- | [<- | [<- | []]]]]]].
    + exists ["a"; "fever"; "pain"]. simpl. tauto.
    + exists ["a"; "fever"; "pain"]. simpl. tauto.
    + exists ["a"; "fever"; "pain"]. simpl. tauto.
    + exists ["b"; "fever"; "cough"]. simpl. tauto.
    + exists ["b"; "fever"; "cough"]. simpl. tauto.
    + exists ["c"; "cough"; "pain"]. simpl. tauto.
Qed.

Lemma scenario_size : List.length (vocabulary iter scenario_texts) = 6%nat.
Proof.
  assert (P : Permutation (keys (vocabulary iter scenario_texts))
                ["a"; "fever"; "pain"; "b"; "cough"; "c"]).
  { apply NoDup_Permutation.
    - apply vocabulary_NoDup.
    - repeat constructor; simpl; intuition discriminate.
    - apply scenario_keys. }
  apply Permutation_length in P. unfold keys in P.
  now rewrite length_map in P.
Qed.

Lemma scenario_vectors (k1 k2 k3 : string) :
  In k1 ["a"; "b"; "c"] ->
  In k2 ["fever"; "pain"; "cough"] -> In k3 ["fever"; "pain"; "cough"] ->
  String.eqb k1 k2 = false -> String.eqb k1 k3 = false ->
  String.eqb k2 k3 = false ->
  raw_weights (vocabulary iter scenario_texts) [k1; k2; k3]
  = [(k1, scenario_name_weight); (k2, scenario_descr_weight);
     (k3, scenario_descr_weight)] /\
  document_vector (vocabulary iter scenario_texts) [k1; k2; k3] = scenario_vector k1 k2 k3.
Proof.
  intros H1 H2 H3 E12 E13 E23.
  apply scenario_idf_name in H1 as [_ G1].
  apply scenario_idf_descr in H2 as [_ G2].
  apply scenario_idf_descr in H3 as [_ G3].
  apply (document_vector_three (vocabulary iter scenario_texts) k1 k2 k3 _ _ _ E12 E13 E23 G1 G2 G3).
  replace (4 / 2) with 2 by lra. pose proof ln_2_pos. lra.
Qed.

Lemma scenario_model :
  train iter (build_corpus three_records)
  = mkModel 3 (vocabulary iter scenario_texts)
      [ mkDoc "A" (scenario_vector "a" "fever" "pain");
        mkDoc "B" (scenario_vector "b" "fever" "cough");
        mkDoc "C" (scenario_vector "c" "cough" "pain") ].
Proof.
  rewrite train_eq, scenario_corpus. cbn [corpus names List.length].
  rewrite scenario_tokens. f_equal.
  cbn [build_docs_tfidf combine map].
  rewrite (proj2 (scenario_vectors "a" "fever" "pain"
                    ltac:(simpl; tauto) ltac:(simpl; tauto) ltac:(simpl; tauto)
                    eq_refl eq_refl eq_refl)).
  rewrite (proj2 (scenario_vectors "b" "fever" "cough"
                    ltac:(simpl; tauto) ltac:(simpl; tauto) ltac:(simpl; tauto)
                    eq_refl eq_refl eq_refl)).
  rewrite (proj2 (scenario_vectors "c" "cough" "pain"
                    ltac:(simpl; tauto) ltac:(simpl; tauto) ltac:(simpl; tauto)
                    eq_refl eq_refl eq_refl)).
  reflexivity.
Qed.

End ScenarioModel.

(** C5, as the code has it.  The composed text of a record starts with its
    name, so for the three records A, B, C of the scenario the corpus is
    "a fever pain", "b fever cough", "c cough pain" and, whatever the order
    of sets, the saved Vocabulary has exactly the six terms a, b, c, fever,
    pain, cough: fever, pain and cough with document frequency 2 and weight
    [1 + ln (4 / 3)], and a, b and c with document frequency 1 and weight
    [1 + ln (4 / 2)].  Each document vector has exactly three terms, of raw
    weight [(1 + ln 2) * idf(term)]; after normalization the two terms of
    the description have the same weight, the raw weight over the norm of
    the three raw weights, which is not [1 / sqrt 2]. *)
Theorem scenario_three_records (rt : runtime) (fs : files) :
  set_order (set_iter rt) ->
  let docs_toks := map tokenize (corpus (build_corpus three_records)) in
  exists idf,
    snd (main rt three_records fs) = Done /\
    dict_get (fst (main rt three_records fs)) VOCAB_PKL
    = Some (PickledVocab idf) /\
    dict_get (fst (main rt three_records fs)) DOCS_PKL
    = Some (PickledDocs
              [ mkDoc "A" (scenario_vector "a" "fever" "pain");
                mkDoc "B" (scenario_vector "b" "fever" "cough");
                mkDoc "C" (scenario_vector "c" "cough" "pain") ]) /\
    (forall t, In t (keys idf) <->
               In t ["a"; "fever"; "pain"; "b"; "cough"; "c"]) /\
    List.length idf = 6 /\
    (forall t, In t ["fever"; "pain"; "cough"] ->
       doc_count t docs_toks = 2 /\
       dict_get idf t = Some (1 + ln (4 / 3))%R) /\
    (forall t, In t ["a"; "b"; "c"] ->
       doc_count t docs_toks = 1 /\
       dict_get idf t = Some (1 + ln (4 / 2))%R) /\
    map (raw_weights idf) docs_toks
    = [ [("a", scenario_name_weight); ("fever", scenario_descr_weight);
         ("pain", scenario_descr_weight)];
        [("b", scenario_name_weight); ("fever", scenario_descr_weight);
         ("cough", scenario_descr_weight)];
        [("c", scenario_name_weight); ("cough", scenario_descr_weight);
         ("pain", scenario_descr_weight)] ] /\
    scenario_descr_weight = ((1 + ln 2) * (1 + ln (4 / 3)))%R /\
    scenario_name_weight = ((1 + ln 2) * (1 + ln (4 / 2)))%R /\
    scenario_norm
    = sqrt (scenario_name_weight * scenario_name_weight
            + scenario_descr_weight * scenario_descr_weight
            + scenario_descr_weight * scenario_descr_weight)%R /\
    (scenario_descr_weight / scenario_norm <> 1 / sqrt 2)%R.
Proof.
  intros Hiter docs_toks. exists (vocabulary (set_iter rt) scenario_texts).
  assert (Hdone : snd (main rt three_records fs) = Done) by reflexivity.
  split; [exact Hdone|].
  rewrite (main_done rt three_records fs Hdone), saved_vocab, saved_docs.
  rewrite (scenario_model (set_iter rt) Hiter). cbn [model_idf model_docs].
  split; [reflexivity|]. split; [reflexivity|].
  split; [intros t; now apply scenario_keys|].
  split; [now apply scenario_size|].
  split; [intros t; now apply scenario_idf_descr|].
  split; [intros t; now apply scenario_idf_name|].
  split.
  - subst docs_toks. rewrite scenario_corpus. cbn [corpus].
    rewrite scenario_tokens. cbn [map].
    rewrite (proj1 (scenario_vectors (set_iter rt) Hiter "a" "fever" "pain"
                      ltac:(simpl; tauto) ltac:(simpl; tauto)
                      ltac:(simpl; tauto) eq_refl eq_refl eq_refl)).
    rewrite (proj1 (scenario_vectors (set_iter rt) Hiter "b" "fever" "cough"
                      ltac:(simpl; tauto) ltac:(simpl; tauto)
                      ltac:(simpl; tauto) eq_refl eq_refl eq_refl)).
    rewrite (proj1 (scenario_vectors (set_iter rt) Hiter "c" "cough" "pain"
                      ltac:(simpl; tauto) ltac:(simpl; tauto)
                      ltac:(simpl; tauto) eq_refl eq_refl eq_refl)).
    reflexivity.
  - repeat split. exact scenario_descr_not_half.
Qed.

Lemma scenario_three_records_witness :
  set_order (set_iter run_first) /\
  dict_get (fst (main run_first three_records [])) DOCS_PKL
  = Some (PickledDocs
            [ mkDoc "A" (scenario_vector "a" "fever" "pain");
              mkDoc "B" (scenario_vector "b" "fever" "cough");
              mkDoc "C" (scenario_vector "c" "cough" "pain") ]).
Proof.
  split; [exact first_seen_order|].
  destruct (scenario_three_records run_first [] first_seen_order)
    as (idf & _ & _ & H & _).
  exact H.
Defined.

(** C5, the claim as written fails: the Vocabulary the run saves has the
    term "a", which is none of fever, pain, cough; it has six terms; each of
    the three document vectors has three terms, not two; and the weight of
    "fever" in a document vector is not [1 / sqrt 2]. *)
Lemma scenario_not_as_claimed :
  exists idf docs,
    dict_get (fst (main run_first three_records [])) VOCAB_PKL
    = Some (PickledVocab idf) /\
    dict_get (fst (main run_first three_records [])) DOCS_PKL
    = Some (PickledDocs docs) /\
    In "a" (keys idf) /\ ~ In "a" ["fever"; "pain"; "cough"] /\
    List.length idf = 6 /\
    map (fun e => List.length (doc_weights e)) docs = [3; 3; 3] /\
    (forall e, In e docs ->
       dict_get (doc_weights e) "fever" <> Some (1 / sqrt 2)%R).
Proof.
  assert (Hdone : snd (main run_first three_records []) = Done) by reflexivity.
  rewrite (main_done run_first three_records [] Hdone), saved_vocab, saved_docs.
  rewrite (scenario_model (set_iter run_first) first_seen_order).
  cbn [model_idf model_docs]. do 2 eexists.
  split; [reflexivity|]. split; [reflexivity|].
  split; [apply (scenario_keys _ first_seen_order); simpl; tauto|].
  split; [simpl; intuition discriminate|].
  split; [exact (scenario_size _ first_seen_order)|].
  split; [reflexivity|].
  intros e [<- | [<- | [<- | []]]]; cbn [doc_weights scenario_vector];
    unfold dict_get; simpl String.eqb; cbv iota;
    try discriminate; intros [= E]; now apply scenario_descr_not_half.
Qed.

(** * Further properties of the script *)

(** ** Lower-casing, trimming and the dedup key *)

Section StringsMore.

Import PyStr.

Local Open Scope string_scope.

Lemma lower_char_idem (c : ascii) : lower_char (lower_char c) = lower_char c.
Proof. destruct c as [[] [] [] [] [] [] [] []]; reflexivity. Qed.

Lemma lower_idem (s : string) : lower (lower s) = lower s.
Proof.
  induction s as [|c s IH]; simpl; [reflexivity|].
  now rewrite lower_char_idem, IH.
Qed.

Lemma lower_app (a b : string) : lower (a ++ b) = lower a ++ lower b.
Proof. induction a as [|c a IH]; simpl; [reflexivity | now rewrite IH]. Qed.

Lemma is_empty_lower (s : string) : is_empty (lower s) = is_empty s.
Proof. now destruct s. Qed.

Lemma lstrip_lower (s : string) : lstrip (lower s) = lower (lstrip s).
Proof.
  induction s as [|c s IH]; simpl; [reflexivity|].
  rewrite is_space_lower_char. now destruct (is_space c).
Qed.

Lemma rstrip_lower (s : string) : rstrip (lower s) = lower (rstrip s).
Proof.
  induction s as [|c s IH]; simpl; [reflexivity|].
  rewrite is_space_lower_char, IH, is_empty_lower.
  now destruct (is_space c && is_empty (rstrip s))%bool.
Qed.

Lemma strip_lower (s : string) : strip (lower s) = lower (strip s).
Proof. unfold strip. now rewrite lstrip_lower, rstrip_lower. Qed.

Lemma rstrip_idem (s : string) : rstrip (rstrip s) = rstrip s.
Proof.
  induction s as [|c s IH]; simpl; [reflexivity|].
  destruct (is_space c && is_empty (rstrip s))%bool eqn:E; simpl;
    [reflexivity|].
  now rewrite IH, E.
Qed.

(** Trimming on the right keeps a first character that is not a space. *)
Lemma lstrip_rstrip (s : string) : lstrip (rstrip (lstrip s)) = rstrip (lstrip s).
Proof.
  pose proof (lstrip_head s) as Hh.
  destruct (lstrip s) as [|c t]; simpl; [reflexivity|].
  rewrite Hh. simpl. now rewrite Hh.
Qed.

Lemma strip_idem (s : string) : strip (strip s) = strip s.
Proof. unfold strip. now rewrite lstrip_rstrip, rstrip_idem. Qed.

Lemma all_space_app (a b : string) :
  all_space (a ++ b) = (all_space a && all_space b)%bool.
Proof.
  induction a as [|c a IH]; simpl; [reflexivity|].
  now rewrite IH, andb_assoc.
Qed.

End StringsMore.

(** X1. The dedup key of a record is its name field lower-cased and
    trimmed, once: trimming in [build_corpus_row] and again after
    lower-casing in [main] changes nothing more.  So two records have the
    same key exactly when their names differ in case and in surrounding
    whitespace only, and the key of a key is the key. *)
Theorem record_key_lower_trimmed (d : Drug) :
  record_key d = PyStr.strip (PyStr.lower (or_empty (name d))) /\
  name_key (record_key d) = record_key d /\
  (forall d',
      record_key d = record_key d' <->
      PyStr.strip (PyStr.lower (or_empty (name d)))
      = PyStr.strip (PyStr.lower (or_empty (name d')))).
Proof.
  assert (H : forall x, record_key x
                        = PyStr.strip (PyStr.lower (or_empty (name x)))).
  { intros x. unfold record_key, name_key. rewrite record_name_strip.
    now rewrite strip_lower, strip_idem, <- strip_lower. }
  split; [apply H|]. split.
  - rewrite H. unfold name_key.
    now rewrite strip_lower, strip_idem, <- strip_lower, lower_idem.
  - intros d'. now rewrite !H.
Qed.

(** ** Tokens of a composed text *)

Section TokensOfFields.

Import PyStr.

Local Open Scope string_scope.

(** A separator ends the match in progress and starts the scan afresh. *)
Lemma findall_from_sep (a b cur : string) (sep : ascii) :
  is_az sep = false ->
  findall_from cur (a ++ String sep b)
  = (findall_from cur a ++ findall_from EmptyString b)%list.
Proof.
  intros Hsep. revert cur. induction a as [|c a IH]; intros cur; simpl.
  - now rewrite Hsep.
  - destruct (is_az c); [apply IH|].
    now rewrite IH, app_assoc.
Qed.

Lemma tokenize_sep (a b : string) :
  tokenize (a ++ " " ++ b) = (tokenize a ++ tokenize b)%list.
Proof.
  unfold tokenize, TOKEN_RE_findall. rewrite lower_app. simpl.
  now apply findall_from_sep.
Qed.

Lemma tokenize_join (ps : list string) :
  tokenize (join " " ps) = List.concat (map tokenize ps).
Proof.
  induction ps as [|p ps IH]; [reflexivity|].
  destruct ps as [|q ps].
  - simpl. now rewrite app_nil_r.
  - change (join " " (p :: q :: ps)) with (p ++ " " ++ join " " (q :: ps)).
    rewrite tokenize_sep, IH. reflexivity.
Qed.

Lemma tokenize_nonempty_parts (ps : list string) :
  List.concat (map tokenize (filter (fun p => negb (is_empty p)) ps))
  = List.concat (map tokenize ps).
Proof.
  induction ps as [|p ps IH]; [reflexivity|]. simpl.
  destruct p as [|c p]; simpl; [exact IH | now rewrite IH].
Qed.

Lemma tokenize_lower (s : string) : tokenize (lower s) = tokenize s.
Proof. unfold tokenize. now rewrite lower_idem. Qed.

Lemma tokenize_normalize (s : string) : tokenize (normalize (Some s)) = tokenize s.
Proof.
  unfold normalize. destruct (is_empty s) eqn:E.
  - apply is_empty_true in E. now subst.
  - apply tokenize_lower.
Qed.

End TokensOfFields.

(** X2. The tokens of the composed text of a record are the tokens of its
    fields, one field after the other in the order name, description, side
    effects, therapeutic class, action class, chemical class, substitutes,
    habit forming: joining with a space never glues two fields into one
    token, a null or empty field gives no token, and lower-casing twice
    (in [normalize] and in [tokenize]) is lower-casing once. *)
Theorem record_tokens_by_field (d : Drug) :
  tokenize (record_text d)
  = tokenize (or_empty (name d))
      ++ tokenize (or_empty (description d))
      ++ tokenize (or_empty (side_effects d))
      ++ tokenize (or_empty (therapeutic_class d))
      ++ tokenize (or_empty (action_class d))
      ++ tokenize (or_empty (chemical_class d))
      ++ tokenize (or_empty (substitutes d))
      ++ tokenize (or_empty (habit_forming d)).
Proof.
  unfold record_text, build_corpus_row. cbn [snd].
  rewrite tokenize_normalize, tokenize_join, tokenize_nonempty_parts.
  cbn [map List.concat]. now rewrite app_nil_r.
Qed.

(** ** What the corpus builder keeps *)

Section CorpusInvariants.

Import PyStr.

Lemma all_space_join_head (nm : string) (l : list string) :
  all_space nm = false -> all_space (join " " (nm :: l)) = false.
Proof.
  intros H. destruct l as [|q l]; [exact H|].
  change (join " " (nm :: q :: l)) with (nm ++ " " ++ join " " (q :: l))%string.
  now rewrite all_space_app, H.
Qed.

(** The composed text of a record with a name is not blank: it starts with
    the name. *)
Lemma record_text_not_blank (d : Drug) :
  is_empty (record_name d) = false ->
  is_empty (strip (record_text d)) = false.
Proof.
  rewrite record_name_strip, !strip_empty. intros Hnm.
  unfold record_text, build_corpus_row. cbn [snd].
  destruct (or_empty (name d)) as [|c nm] eqn:E; [discriminate|].
  cbn [filter is_empty negb].
  match goal with
  | |- context [join " " (String c nm :: ?r)] => set (rest := r)
  end.
  assert (Hj : all_space (join " " (String c nm :: rest)) = false)
    by now apply all_space_join_head.
  unfold normalize.
  destruct (is_empty (join " " (String c nm :: rest))) eqn:Ee.
  - apply is_empty_true in Ee. rewrite Ee in Hj. discriminate.
  - now rewrite all_space_lower.
Qed.

Lemma record_text_lower (d : Drug) : lower (record_text d) = record_text d.
Proof.
  unfold record_text, build_corpus_row. cbn [snd]. unfold normalize.
  destruct (is_empty _); [reflexivity | apply lower_idem].
Qed.

Lemma skipped_eq (pre : list Drug) (d : Drug) :
  skipped pre d
  = (is_empty (record_name d)
     || set_mem (record_key d) (map record_key pre))%bool.
Proof.
  unfold skipped. destruct (is_empty (record_name d)) eqn:Hn; [reflexivity|].
  rewrite (record_text_not_blank d Hn). simpl. now rewrite orb_false_r.
Qed.

Lemma combine_snoc {A B : Type} (l1 : list A) (l2 : list B) (a : A) (b : B) :
  List.length l1 = List.length l2 ->
  combine (l1 ++ [a]) (l2 ++ [b]) = combine l1 l2 ++ [(a, b)].
Proof.
  revert l2. induction l1 as [|x l1 IH]; intros [|y l2] H; simpl in *;
    try discriminate; [reflexivity|].
  now rewrite IH by lia.
Qed.

Lemma NoDup_snoc {A : Type} (l : list A) (x : A) :
  NoDup l -> ~ In x l -> NoDup (l ++ [x]).
Proof.
  intros Hl Hx. apply NoDup_app; [assumption | repeat constructor; simpl; tauto|].
  intros y Hy [<- | []]. tauto.
Qed.

(** What holds of the state of the first loop after any number of rows. *)
Lemma build_corpus_invariant (ds : list Drug) :
  let st := build_corpus ds in
  List.length (names st) = List.length (corpus st) /\
  Forall (fun nm => is_empty nm = false /\ strip nm = nm) (names st) /\
  NoDup (map name_key (names st)) /\
  (forall k, In k (seen st) <-> In k (map name_key (names st))) /\
  Forall (fun text => lower text = text /\ all_space text = false)
         (corpus st) /\
  (forall nm text, In (nm, text) (combine (names st) (corpus st)) ->
     exists d, In d ds /\ build_corpus_row d = (nm, text)).
Proof.
  induction ds as [|d ds IH] using rev_ind.
  - simpl. repeat split; try constructor; tauto.
  - cbv zeta in *. destruct IH as (Hlen & Hnm & Hnd & Hseen & Htxt & Hrow).
    assert (Hold : forall nm text,
               In (nm, text) (combine (names (build_corpus ds))
                                      (corpus (build_corpus ds))) ->
               exists d0, In d0 (ds ++ [d]) /\ build_corpus_row d0 = (nm, text)).
    { intros nm text Hin. destruct (Hrow nm text Hin) as (d0 & H0 & H1).
      exists d0. split; [apply in_or_app; now left | exact H1]. }
    pose proof (conj Hlen (conj Hnm (conj Hnd (conj Hseen (conj Htxt Hold)))))
      as Hsame.
    rewrite build_corpus_snoc, corpus_step_eq.
    destruct (is_empty (record_name d)) eqn:Hn; [exact Hsame|].
    destruct (set_mem (record_key d) (seen (build_corpus ds))) eqn:Hs;
      [exact Hsame|].
    clear Hsame.
    rewrite (record_text_not_blank d Hn). cbn [names corpus seen].
    assert (Hfresh : ~ In (record_key d)
                       (map name_key (names (build_corpus ds)))).
    { intros Hin. apply Hseen, set_mem_In in Hin. congruence. }
    split; [rewrite !length_app; simpl; lia|].
    split.
    { apply Forall_app. split; [exact Hnm|]. constructor; [|constructor].
      split; [exact Hn|]. rewrite record_name_strip. apply strip_idem. }
    split.
    { rewrite map_app. simpl. now apply NoDup_snoc. }
    split.
    { intros k. rewrite map_app, in_app_iff. simpl.
      rewrite Hseen. unfold record_key. tauto. }
    split.
    { apply Forall_app. split; [exact Htxt|]. constructor; [|constructor].
      split; [apply record_text_lower|].
      rewrite <- strip_empty. now apply record_text_not_blank. }
    intros nm text Hin. rewrite combine_snoc in Hin by exact Hlen.
    apply in_app_or in Hin as [Hin | [[= <- <-] | []]].
    + now apply Hold.
    + exists d. split; [apply in_or_app; right; now left|].
      unfold record_name, record_text. now destruct (build_corpus_row d).
Qed.

(** Without a record that has a name there is no corpus; with one there
    is. *)
Lemma build_corpus_nonempty (ds : list Drug) :
  corpus (build_corpus ds) <> [] <->
  exists d, In d ds /\ is_empty (record_name d) = false.
Proof.
  split.
  - intros Hne.
    destruct (build_corpus_invariant ds) as (Hlen & Hnm & _ & _ & _ & Hrow).
    destruct (corpus (build_corpus ds)) as [|text cs] eqn:Ec; [congruence|].
    destruct (names (build_corpus ds)) as [|nm ns] eqn:En; [discriminate|].
    destruct (Hrow nm text (or_introl eq_refl)) as (d & Hd & Hr).
    exists d. split; [exact Hd|]. unfold record_name. rewrite Hr. simpl.
    inversion Hnm as [|? ? [H _] _]. exact H.
  - induction ds as [|x ds IH] using rev_ind; [intros (d & [] & _)|].
    intros (d & Hd & Hn).
    destruct (build_corpus_step ds x) as [Hc _]. rewrite Hc.
    destruct (corpus (build_corpus ds)) as [|c0 cs] eqn:Ec;
      [|discriminate].
    assert (Hnone : forall d0, In d0 ds -> is_empty (record_name d0) = true).
    { intros d0 H0. destruct (is_empty (record_name d0)) eqn:E0;
        [reflexivity|].
      exfalso. apply IH; [now exists d0 | reflexivity]. }
    apply in_app_or in Hd as [Hd | [<- | []]];
      [rewrite (Hnone d Hd) in Hn; discriminate|].
    rewrite skipped_eq, Hn. simpl.
    destruct (set_mem (record_key x) (map record_key ds)) eqn:Hs;
      [|discriminate].
    apply set_mem_In, in_map_iff in Hs as (d0 & Hk & H0).
    assert (Hx : is_empty (record_key x) = false).
    { unfold record_key. rewrite record_name_strip in *.
      now apply name_key_nonempty. }
    apply Hnone, is_empty_true in H0.
    unfold record_key in Hk at 1. rewrite H0, name_key_empty in Hk.
    rewrite <- Hk in Hx. discriminate.
Qed.

End CorpusInvariants.

(** X3. The test [if not text.strip(): continue] of the first loop never
    decides: the composed text of a record starts with its name, so a
    record that passed the test on the name has a text that is not blank.
    A step of the loop either leaves the state as it is (no name, or key
    already seen) or appends the row and records the key. *)
Theorem text_check_never_skips (st : corpus_state) (d : Drug) :
  (PyStr.is_empty (record_name d)
   || negb (PyStr.is_empty (PyStr.strip (record_text d))) = true)%bool /\
  corpus_step st d
  = (if (PyStr.is_empty (record_name d)
         || set_mem (record_key d) (seen st))%bool
     then st
     else mkCorpus (corpus st ++ [record_text d])
                   (names st ++ [record_name d])
                   (record_key d :: seen st)).
Proof.
  rewrite corpus_step_eq.
  destruct (PyStr.is_empty (record_name d)) eqn:Hn; simpl.
  - split; reflexivity.
  - rewrite (record_text_not_blank d Hn). split; [reflexivity|].
    now destruct (set_mem (record_key d) (seen st)).
Qed.

(** X4. Whatever the rows, the corpus builder leaves as many names as
    texts (so [zip(tokenized_docs, names)] drops nothing); every name is
    trimmed and not empty; no two names have the same dedup key, and [seen]
    holds exactly the keys of the names kept; every text is in lower case
    and not blank; and every pair of a name with its text is the row
    [build_corpus_row] gives for one of the records. *)
Theorem corpus_entries_wellformed (ds : list Drug) :
  let st := build_corpus ds in
  List.length (names st) = List.length (corpus st) /\
  Forall (fun nm => PyStr.is_empty nm = false /\ PyStr.strip nm = nm)
         (names st) /\
  NoDup (map name_key (names st)) /\
  (forall k, In k (seen st) <-> In k (map name_key (names st))) /\
  Forall (fun text => PyStr.lower text = text /\ PyStr.all_space text = false)
         (corpus st) /\
  (forall nm text, In (nm, text) (combine (names st) (corpus st)) ->
     exists d, In d ds /\ build_corpus_row d = (nm, text)).
Proof. exact (build_corpus_invariant ds). Qed.

(** X5. [main] succeeds exactly when some row has a name that is not empty
    once trimmed; the other fields do not matter.  It fails exactly when
    every row has a null, empty or whitespace-only name (or there is no
    row). *)
Theorem main_succeeds_iff_named
    (rt : runtime) (ds : list Drug) (fs : files) :
  (snd (main rt ds fs) = Done <->
   exists d, In d ds /\ PyStr.strip (or_empty (name d)) <> EmptyString) /\
  ((exists e, snd (main rt ds fs) = Raised e) <->
   forall d, In d ds -> PyStr.strip (or_empty (name d)) = EmptyString).
Proof.
  assert (Hnamed : corpus (build_corpus ds) <> [] <->
                   exists d, In d ds
                             /\ PyStr.strip (or_empty (name d)) <> EmptyString).
  { rewrite build_corpus_nonempty. split; intros (d & Hd & Hn); exists d;
      (split; [exact Hd|]); rewrite record_name_strip in *.
    - intros E. rewrite E in Hn. discriminate.
    - destruct (PyStr.strip (or_empty (name d))); [congruence | reflexivity]. }
  destruct (corpus (build_corpus ds)) as [|c0 cs] eqn:Ec.
  - pose proof (main_raises rt ds fs Ec) as Hm. rewrite Hm. simpl.
    assert (Hnone : forall d, In d ds ->
                      PyStr.strip (or_empty (name d)) = EmptyString).
    { intros d Hd.
      destruct (string_dec (PyStr.strip (or_empty (name d))) EmptyString)
        as [E|E]; [exact E|].
      exfalso. apply (proj2 Hnamed); [now exists d | reflexivity]. }
    split; split.
    + discriminate.
    + intros (d & Hd & Hn). exfalso. now apply Hn, Hnone.
    + intros _. exact Hnone.
    + intros _. eexists. reflexivity.
  - assert (Hne : corpus (build_corpus ds) <> [])
      by (rewrite Ec; discriminate).
    pose proof (main_succeeds rt ds fs Hne) as Hm. rewrite Hm.
    destruct (proj1 Hnamed) as (d & Hd & Hn); [discriminate|].
    split; split.
    + intros _. now exists d.
    + reflexivity.
    + intros (e & He). discriminate.
    + intros Hall. exfalso. now apply Hn, Hall.
Qed.

(** ** Rarer terms weigh more *)

Section IdfOrder.

Local Open Scope R_scope.

Lemma idf_weight_antitone (N c1 c2 : nat) :
  (c1 < c2)%nat -> idf_weight N c2 < idf_weight N c1.
Proof.
  intros H. unfold idf_weight.
  pose proof (INR_succ_pos N) as HN.
  pose proof (INR_succ_pos c1) as H1. pose proof (INR_succ_pos c2) as H2.
  assert (H12 : INR (c1 + 1) < INR (c2 + 1)) by (apply lt_INR; lia).
  assert (Hr : INR (N + 1) / INR (c2 + 1) < INR (N + 1) / INR (c1 + 1)).
  { unfold Rdiv. apply Rmult_lt_compat_l; [exact HN|].
    now apply Rinv_lt_contravar; [apply Rmult_lt_0_compat|]. }
  assert (ln (INR (N + 1) / INR (c2 + 1)) < ln (INR (N + 1) / INR (c1 + 1))).
  { apply ln_increasing; [|exact Hr]. now apply Rdiv_lt_0_compat. }
  lra.
Qed.

Lemma idf_weight_le_max (N c : nat) :
  (1 <= c)%nat -> idf_weight N c <= 1 + ln (INR (N + 1) / 2).
Proof.
  intros H. destruct (Nat.eq_dec c 1) as [->|Hne].
  - unfold idf_weight. simpl (INR (1 + 1)). right. reflexivity.
  - left. replace (1 + ln (INR (N + 1) / 2)) with (idf_weight N 1).
    + apply idf_weight_antitone. lia.
    + unfold idf_weight. simpl (INR (1 + 1)). reflexivity.
Qed.

End IdfOrder.

(** X6. In the Vocabulary of a corpus of N documents, of two terms the one
    in fewer documents has the strictly larger weight, and terms in the same
    number of documents have the same weight; every weight lies between 1
    (a term in every document) and [1 + ln ((N + 1) / 2)] (a term in one
    document). *)
Theorem vocabulary_rarer_weighs_more
    (iter : list string -> list string) (corpus : list string)
    (t1 t2 : string) (w1 w2 : R) :
  set_order iter ->
  dict_get (vocabulary iter corpus) t1 = Some w1 ->
  dict_get (vocabulary iter corpus) t2 = Some w2 ->
  let docs := map tokenize corpus in
  (doc_count t1 docs < doc_count t2 docs -> (w2 < w1)%R) /\
  (doc_count t1 docs = doc_count t2 docs -> w1 = w2) /\
  (1 <= w1 <= 1 + ln (INR (List.length corpus + 1) / 2))%R.
Proof.
  intros Hiter H1 H2 docs. subst docs.
  rewrite (vocabulary_lookup iter Hiter) in H1, H2.
  destruct (doc_count t1 (map tokenize corpus)) as [|c1] eqn:E1;
    [discriminate|].
  destruct (doc_count t2 (map tokenize corpus)) as [|c2] eqn:E2;
    [discriminate|].
  injection H1 as <-. injection H2 as <-.
  split; [|split; [|split]].
  - apply idf_weight_antitone.
  - now intros ->.
  - apply idf_weight_ge_1. rewrite <- E1.
    pose proof (doc_count_le t1 (map tokenize corpus)) as H.
    now rewrite length_map in H.
  - apply idf_weight_le_max. lia.
Qed.

Lemma vocabulary_rarer_weighs_more_witness :
  set_order first_seen /\
  dict_get (vocabulary first_seen scenario_texts) "a"
  = Some (idf_weight 3 1) /\
  dict_get (vocabulary first_seen scenario_texts) "fever"
  = Some (idf_weight 3 2) /\
  (idf_weight 3 2 < idf_weight 3 1)%R.
Proof.
  assert (Ha : dict_get (vocabulary first_seen scenario_texts) "a"
               = Some (idf_weight 3 1))
    by now rewrite (vocabulary_lookup first_seen first_seen_order).
  assert (Hf : dict_get (vocabulary first_seen scenario_texts) "fever"
               = Some (idf_weight 3 2))
    by now rewrite (vocabulary_lookup first_seen first_seen_order).
  split; [exact first_seen_order|]. split; [exact Ha|]. split; [exact Hf|].
  apply (proj1 (vocabulary_rarer_weighs_more first_seen scenario_texts
                  "a" "fever" _ _ first_seen_order Ha Hf)).
  vm_compute. lia.
Defined.

(** ** The terms of a document vector *)

Section VectorTerms.

Lemma filter_filter {A : Type} (p q : A -> bool) (l : list A) :
  filter p (filter q l) = filter (fun y => (q y && p y)%bool) l.
Proof.
  induction l as [|x l IH]; simpl; [reflexivity|].
  destruct (q x); simpl; [|exact IH]. destruct (p x); now rewrite IH.
Qed.

Lemma dict_mem_keys {V : Type} (d : dict V) (k : string) :
  dict_mem d k = set_mem k (keys d).
Proof.
  apply eq_true_iff_eq. rewrite set_mem_In, <- dict_get_In.
  unfold dict_mem. destruct (dict_get d k) as [v|].
  - split; [intros _; now exists v | reflexivity].
  - split; [discriminate | intros (v & H); discriminate].
Qed.

Lemma set_mem_snoc (y x : string) (l : list string) :
  set_mem y (l ++ [x]) = (set_mem y l || String.eqb x y)%bool.
Proof.
  unfold set_mem. rewrite existsb_app. simpl.
  now rewrite orb_false_r, (String.eqb_sym y x).
Qed.

(** A counter lists its keys in the order in which they were first
    counted. *)
Lemma counter_update_keys_order (items : list string) : forall c : Counter,
  keys (counter_update c items)
  = keys c ++ filter (fun y => negb (set_mem y (keys c))) (first_seen items).
Proof.
  induction items as [|x items IH]; intros c.
  - simpl. now rewrite app_nil_r.
  - change (counter_update c (x :: items))
      with (counter_update (dict_set c x (counter_get c x + 1)) items).
    rewrite IH, keys_set, dict_mem_keys. simpl.
    destruct (set_mem x (keys c)) eqn:Hx; simpl.
    + f_equal. rewrite filter_filter. apply filter_ext_in. intros y _.
      destruct (String.eqb x y) eqn:E; simpl; [|reflexivity].
      apply String.eqb_eq in E. subst y. now rewrite Hx.
    + rewrite <- app_assoc. simpl. do 2 f_equal.
      rewrite filter_filter. apply filter_ext. intros y.
      rewrite set_mem_snoc, negb_orb. apply andb_comm.
Qed.

Lemma counter_of_tokens_keys (toks : list string) :
  keys (counter_update [] toks) = first_seen toks.
Proof.
  rewrite counter_update_keys_order. simpl.
  induction (first_seen toks) as [|y l IH]; simpl; [reflexivity|].
  now rewrite IH.
Qed.

Lemma flat_map_singletons {A B : Type} (f : A -> list B) (g : A -> B)
    (l : list A) :
  (forall x, In x l -> f x = [g x]) -> flat_map f l = map g l.
Proof.
  induction l as [|x l IH]; intros H; simpl; [reflexivity|].
  rewrite (H x (or_introl eq_refl)), IH; [reflexivity|].
  intros y Hy. apply H. now right.
Qed.

(** When the table has every token of the document, the loop of step 4
    sets a weight for every counted term. *)
Lemma raw_weights_all_known (idf : dict R) (toks : list string)
    (w : string -> R) :
  (forall t, In t toks -> dict_get idf t = Some (w t)) ->
  raw_weights idf toks
  = map (fun '(t, f) => (t, sublinear_tf f * w t)%R) (counter_update [] toks).
Proof.
  intros H. rewrite raw_weights_eq. apply flat_map_singletons.
  intros [t f] Hin.
  assert (Ht : In t toks).
  { assert (Hk : In t (keys (counter_update [] toks))).
    { unfold keys. apply in_map_iff. now exists (t, f). }
    apply (counter_update_keys toks [] t) in Hk. simpl in Hk. tauto. }
  now rewrite (H t Ht).
Qed.

End VectorTerms.

Lemma dict_by_keys {V : Type} (d : dict V) (g : string -> V) :
  (forall t v, In (t, v) d -> v = g t) ->
  d = map (fun t => (t, g t)) (keys d).
Proof.
  induction d as [|[t v] d IH]; intros H; simpl; [reflexivity|].
  rewrite <- IH by (intros; apply H; now right).
  now rewrite (H t v (or_introl eq_refl)).
Qed.

(** [Counter(toks)]: the distinct tokens in the order of their first
    occurrence, each with the number of its occurrences. *)
Lemma counter_of_tokens_eq (toks : list string) :
  counter_update [] toks
  = map (fun t => (t, term_count t toks)) (first_seen toks).
Proof.
  rewrite <- counter_of_tokens_keys. apply dict_by_keys. intros t f Hin.
  apply (dict_get_NoDup _ _ _ (counter_of_tokens_NoDup toks)) in Hin.
  rewrite counter_of_tokens in Hin.
  destruct (term_count t toks); [discriminate | now injection Hin].
Qed.

(** X7. In a run, the guard [if term not in idf: continue] of step 4 never
    skips: every token of a document of the corpus is in the Vocabulary
    built from that corpus.  So the weights of a document before
    normalization are, for each distinct token in the order of its first
    occurrence, [(1 + ln (1 + f)) * (1 + ln ((N + 1) / (c + 1)))] with [f]
    its count in the document and [c] its document frequency; the document
    vector has these same terms in this order, all of them terms of the
    Vocabulary. *)
Theorem document_vector_terms
    (iter : list string -> list string) (corpus : list string)
    (toks : list string) :
  set_order iter ->
  In toks (map tokenize corpus) ->
  let N := List.length corpus in
  let docs := map tokenize corpus in
  let idf := vocabulary iter corpus in
  (forall t, In t toks -> dict_mem idf t = true) /\
  raw_weights idf toks
  = map (fun t =>
           (t, ((1 + ln (INR (1 + term_count t toks)))
                * (1 + ln (INR (N + 1) / INR (doc_count t docs + 1))))%R))
        (first_seen toks) /\
  keys (document_vector idf toks) = first_seen toks /\
  (forall t, In t (keys (document_vector idf toks)) -> In t (keys idf)).
Proof.
  intros Hiter Htoks N docs idf.
  assert (Hknown : forall t, In t toks ->
            dict_get idf t = Some (idf_weight N (doc_count t docs))).
  { intros t Ht. unfold idf. rewrite (vocabulary_lookup iter Hiter).
    fold docs. fold N.
    assert (Hpos : 0 < doc_count t docs)
      by (apply doc_count_pos; now exists toks).
    destruct (doc_count t docs); [lia | reflexivity]. }
  assert (Hraw : raw_weights idf toks
                 = map (fun t =>
                          (t, (sublinear_tf (term_count t toks)
                               * idf_weight N (doc_count t docs))%R))
                       (first_seen toks)).
  { rewrite (raw_weights_all_known idf toks
               (fun t => idf_weight N (doc_count t docs)) Hknown).
    now rewrite counter_of_tokens_eq, map_map. }
  assert (Hkeys : keys (document_vector idf toks) = first_seen toks).
  { rewrite document_vector_eq.
    rewrite (keys_map (fun v => (v / l2_norm (raw_weights idf toks))%R)).
    rewrite Hraw. unfold keys. rewrite map_map. simpl. apply map_id. }
  split; [|split; [|split]].
  - intros t Ht. unfold dict_mem. now rewrite (Hknown t Ht).
  - exact Hraw.
  - exact Hkeys.
  - intros t Ht. rewrite Hkeys in Ht.
    apply (proj1 (first_seen_In toks t)) in Ht.
    apply (proj1 (dict_get_In idf t)).
    exists (idf_weight N (doc_count t docs)). exact (Hknown t Ht).
Qed.

Lemma document_vector_terms_witness :
  set_order first_seen /\
  In ["a"; "fever"; "pain"] (map tokenize scenario_texts) /\
  keys (document_vector (vocabulary first_seen scenario_texts)
          ["a"; "fever"; "pain"])
  = ["a"; "fever"; "pain"].
Proof.
  split; [exact first_seen_order|].
  assert (H : In ["a"; "fever"; "pain"] (map tokenize scenario_texts))
    by now left.
  split; [exact H|].
  exact (proj1 (proj2 (proj2
    (document_vector_terms first_seen scenario_texts ["a"; "fever"; "pain"]
       first_seen_order H)))).
Defined.

(** ** Bounds on the weights of a document vector *)

Section WeightBounds.

Local Open Scope R_scope.

Lemma square_le_sum_squares (v : R) (vs : list R) :
  In v vs -> v * v <= sum_squares vs.
Proof.
  induction vs as [|x vs IH]; intros H; [destruct H|].
  rewrite sum_squares_cons. destruct H as [-> | H].
  - pose proof (sum_squares_nonneg vs). lra.
  - specialize (IH H). nra.
Qed.

Lemma Rabs_le_sqrt (v s : R) : v * v <= s -> Rabs v <= sqrt s.
Proof.
  intros H. rewrite <- sqrt_Rsqr_abs. unfold Rsqr.
  now apply sqrt_le_1_alt.
Qed.

(** Dividing by the norm [main] uses leaves no weight above 1 in absolute
    value. *)
Lemma l2_normalize_bounded (weights : dict R) (t : string) (v : R) :
  In (t, v) weights -> Rabs (v / l2_norm weights) <= 1.
Proof.
  intros Hin.
  assert (Hv : In v (values weights)).
  { unfold values. apply in_map_iff. now exists (t, v). }
  pose proof (square_le_sum_squares v _ Hv) as Hsq.
  pose proof (Rabs_le_sqrt v _ Hsq) as Hle.
  pose proof (l2_norm_pos weights) as Hn.
  unfold Rdiv. rewrite Rabs_mult, (Rabs_inv (l2_norm weights)).
  rewrite (Rabs_pos_eq (l2_norm weights)) by lra.
  apply (Rmult_le_reg_r (l2_norm weights)); [exact Hn|].
  rewrite Rmult_assoc, Rinv_l, Rmult_1_r, Rmult_1_l by lra.
  unfold l2_norm in *.
  destruct (Req_EM_T (sqrt (sum_squares (values weights))) 0) as [E|E].
  - rewrite E in Hle. lra.
  - exact Hle.
Qed.

End WeightBounds.

(** X8. For every table and every document, no weight of the document
    vector exceeds 1 in absolute value (the vector is divided by its norm,
    or by 1 when the norm is 0); and a document whose raw weights are a
    single positive weight gets exactly the weight 1 for its term. *)
Theorem document_vector_bounded (idf : dict R) (toks : list string) :
  Forall (fun p => (Rabs (snd p) <= 1)%R) (document_vector idf toks) /\
  (forall t r, raw_weights idf toks = [(t, r)] -> (0 < r)%R ->
     document_vector idf toks = [(t, 1%R)]).
Proof.
  split.
  - rewrite document_vector_eq. apply Forall_forall. intros [t w] Hin.
    apply in_map_iff in Hin as ([t' v] & [= -> <-] & Hin). simpl.
    now apply (l2_normalize_bounded _ t).
  - intros t r Hraw Hr. rewrite document_vector_eq, Hraw. simpl.
    assert (Hs : sum_squares (values [(t, r)]) = (r * r)%R).
    { simpl. rewrite sum_squares_cons, sum_squares_nil. lra. }
    rewrite l2_norm_sqrt by (rewrite Hs; nra).
    rewrite Hs, sqrt_square by lra.
    now rewrite Rdiv_diag by lra.
Qed.

(** ** The saved artifacts *)

Section Artifacts.

Lemma combine_fst_snd {A B : Type} (l1 : list A) (l2 : list B) :
  List.length l1 = List.length l2 ->
  map fst (combine l1 l2) = l1 /\ map snd (combine l1 l2) = l2.
Proof.
  revert l2. induction l1 as [|x l1 IH]; intros [|y l2] H; simpl in *;
    try discriminate; [now split|].
  destruct (IH l2) as [H1 H2]; [lia|]. now rewrite H1, H2.
Qed.

(** One entry per document of the corpus, in order, under its name. *)
Lemma build_docs_tfidf_shape (idf : dict R) (docs : list (list string))
    (nms : list string) :
  List.length docs = List.length nms ->
  map doc_name (build_docs_tfidf idf docs nms) = nms /\
  map doc_weights (build_docs_tfidf idf docs nms)
  = map (document_vector idf) docs /\
  List.length (build_docs_tfidf idf docs nms) = List.length docs.
Proof.
  intros H. destruct (combine_fst_snd docs nms H) as [H1 H2].
  unfold build_docs_tfidf. rewrite !map_map, length_map.
  split; [|split].
  - rewrite <- H2 at 2. apply map_ext. now intros [toks nm].
  - rewrite <- H1 at 2. rewrite map_map. apply map_ext. now intros [toks nm].
  - rewrite length_combine. lia.
Qed.

(** The terms of the Vocabulary are the distinct tokens of the corpus. *)
Lemma vocabulary_size (iter : list string -> list string)
    (corpus : list string) :
  set_order iter ->
  List.length (vocabulary iter corpus)
  = List.length (first_seen (List.concat (map tokenize corpus))).
Proof.
  intros Hiter.
  assert (P : Permutation (keys (vocabulary iter corpus))
                (first_seen (List.concat (map tokenize corpus)))).
  { apply NoDup_Permutation.
    - now apply vocabulary_NoDup.
    - apply first_seen_NoDup.
    - intros t. rewrite (vocabulary_keys iter Hiter), first_seen_In.
      rewrite in_concat. split; intros (toks & H1 & H2); now exists toks. }
  apply Permutation_length in P. unfold keys in P.
  now rewrite length_map in P.
Qed.

End Artifacts.

(** X9. When [main] succeeds, the saved list of document vectors has one
    entry per document of the corpus, in order, each under the name of its
    record (names and texts go in pairs, so [zip] drops none) and holding
    the vector of its tokens for the saved Vocabulary; the metadata record
    the number of these entries, which is not 0, and the number of terms of
    the Vocabulary, which is the number of distinct tokens in the corpus,
    with the clock and the path of the script. *)
Theorem saved_artifacts_shape
    (rt : runtime) (drugs : list Drug) (fs : files) :
  set_order (set_iter rt) ->
  snd (main rt drugs fs) = Done ->
  let st := build_corpus drugs in
  exists idf docs meta,
    dict_get (fst (main rt drugs fs)) VOCAB_PKL = Some (PickledVocab idf) /\
    dict_get (fst (main rt drugs fs)) DOCS_PKL = Some (PickledDocs docs) /\
    dict_get (fst (main rt drugs fs)) META_JSON = Some (JsonMeta meta) /\
    map doc_name docs = names st /\
    map doc_weights docs
    = map (document_vector idf) (map tokenize (corpus st)) /\
    num_docs meta = List.length docs /\
    num_docs meta = List.length (corpus st) /\
    0 < num_docs meta /\
    num_terms meta = List.length idf /\
    num_terms meta
    = List.length (first_seen (List.concat (map tokenize (corpus st)))) /\
    built_at meta = utcnow_z rt /\
    script meta = this_file rt.
Proof.
  intros Hiter Hdone st.
  assert (Hne : corpus st <> []).
  { intros E. unfold st in E. rewrite (main_raises rt drugs fs E) in Hdone.
    discriminate. }
  rewrite (main_done rt drugs fs Hdone), saved_vocab, saved_docs, saved_meta.
  rewrite train_eq. fold st. cbn [model_idf model_docs model_N].
  assert (Hlen : List.length (map tokenize (corpus st))
                 = List.length (names st)).
  { rewrite length_map. symmetry. apply build_corpus_lengths. }
  destruct (build_docs_tfidf_shape (vocabulary (set_iter rt) (corpus st))
              _ _ Hlen) as (H1 & H2 & H3).
  do 3 eexists. do 3 (split; [reflexivity|]).
  split; [exact H1|]. split; [exact H2|]. cbn [num_docs num_terms built_at script].
  rewrite H3, length_map.
  split; [reflexivity|]. split; [reflexivity|].
  split; [destruct (corpus st); [congruence | simpl; lia]|].
  split; [reflexivity|].
  split; [now apply vocabulary_size|].
  split; reflexivity.
Qed.

Lemma saved_artifacts_shape_witness :
  set_order (set_iter run_first) /\
  snd (main run_first three_records []) = Done /\
  exists idf docs meta,
    dict_get (fst (main run_first three_records [])) VOCAB_PKL
    = Some (PickledVocab idf) /\
    dict_get (fst (main run_first three_records [])) DOCS_PKL
    = Some (PickledDocs docs) /\
    dict_get (fst (main run_first three_records [])) META_JSON
    = Some (JsonMeta meta) /\
    map doc_name docs = ["A"; "B"; "C"] /\
    num_docs meta = 3.
Proof.
  split; [exact first_seen_order|]. split; [reflexivity|].
  destruct (saved_artifacts_shape run_first three_records []
              first_seen_order eq_refl)
    as (idf & docs & meta & Hv & Hd & Hm & Hn & _ & _ & HN & _).
  exists idf, docs, meta. repeat split; assumption.
Defined.

(** ** Running again *)

Section Rerun.

Lemma dict_set_same {V : Type} (d : dict V) (k : string) (v : V) :
  dict_get d k = Some v -> dict_set d k v = d.
Proof.
  induction d as [|[k0 v0] d IH]; simpl; [discriminate|].
  destruct (String.eqb k0 k); [now intros [= ->] | intros H; now rewrite IH].
Qed.

Lemma save_artifacts_idem (rt : runtime) (m : model) (fs : files) :
  save_artifacts rt m (save_artifacts rt m fs) = save_artifacts rt m fs.
Proof.
  set (fs' := save_artifacts rt m fs).
  unfold save_artifacts at 1.
  rewrite (dict_set_same fs' VOCAB_PKL) by apply saved_vocab.
  rewrite (dict_set_same fs' DOCS_PKL) by apply saved_docs.
  now rewrite (dict_set_same fs' META_JSON) by apply saved_meta.
Qed.

Lemma save_artifacts_others (rt : runtime) (m : model) (fs : files)
    (p : string) :
  p <> VOCAB_PKL -> p <> DOCS_PKL -> p <> META_JSON ->
  dict_get (save_artifacts rt m fs) p = dict_get fs p.
Proof.
  intros H1 H2 H3. unfold save_artifacts. rewrite !dict_get_set.
  destruct (String.eqb_spec META_JSON p); [congruence|].
  destruct (String.eqb_spec DOCS_PKL p); [congruence|].
  destruct (String.eqb_spec VOCAB_PKL p); [congruence | reflexivity].
Qed.

Lemma save_artifacts_keeps (rt : runtime) (m : model) (fs : files)
    (p : string) :
  In p (keys fs) -> In p (keys (save_artifacts rt m fs)).
Proof.
  intros H. unfold save_artifacts. rewrite !keys_set_In. tauto.
Qed.

Lemma main_cases (rt : runtime) (drugs : list Drug) (fs : files) :
  (exists e, forall fs', main rt drugs fs' = (fs', Raised e)) \/
  (forall fs',
      main rt drugs fs'
      = (save_artifacts rt (train (set_iter rt) (build_corpus drugs)) fs',
         Done)).
Proof.
  destruct (corpus (build_corpus drugs)) as [|c0 cs] eqn:Ec.
  - left. eexists. intros fs'. now apply main_raises.
  - right. intros fs'.
    assert (Hne : corpus (build_corpus drugs) <> [])
      by (rewrite Ec; discriminate).
    rewrite (surjective_pairing (main rt drugs fs')).
    rewrite (main_succeeds rt drugs fs' Hne).
    now rewrite (main_done rt drugs fs' (main_succeeds rt drugs fs' Hne)).
Qed.

End Rerun.

(** X10. A run changes the three artifact files and nothing else: every
    other file of the directory is as it was, and no file is removed.  What
    a successful run leaves in the three files does not depend on what the
    directory held before (prior artifacts are overwritten, never read or
    merged).  Running again on the same rows, with the same clock reading
    and set order, leaves the directory as the first run left it. *)
Theorem rerun_overwrites (rt : runtime) (drugs : list Drug) (fs : files) :
  (forall p, p <> VOCAB_PKL -> p <> DOCS_PKL -> p <> META_JSON ->
     dict_get (fst (main rt drugs fs)) p = dict_get fs p) /\
  (forall p, In p (keys fs) -> In p (keys (fst (main rt drugs fs)))) /\
  (forall fs' p,
     snd (main rt drugs fs) = Done ->
     p = VOCAB_PKL \/ p = DOCS_PKL \/ p = META_JSON ->
     dict_get (fst (main rt drugs fs)) p
     = dict_get (fst (main rt drugs fs')) p) /\
  main rt drugs (fst (main rt drugs fs)) = main rt drugs fs.
Proof.
  destruct (main_cases rt drugs fs) as [(e & H) | H].
  - rewrite !H. simpl. repeat split; try tauto. discriminate.
  - rewrite !H. cbn [fst snd]. split; [|split; [|split]].
    + intros p. apply save_artifacts_others.
    + intros p. apply save_artifacts_keeps.
    + intros fs' p _ Hp. rewrite (H fs'). cbn [fst].
      destruct Hp as [-> | [-> | ->]].
      * now rewrite !saved_vocab.
      * now rewrite !saved_docs.
      * now rewrite !saved_meta.
    + now rewrite save_artifacts_idem.
Qed.

(** ** Term frequency within a document *)

Section TermFrequency.

Local Open Scope R_scope.

Lemma sublinear_tf_increasing (f1 f2 : nat) :
  (f1 < f2)%nat -> sublinear_tf f1 < sublinear_tf f2.
Proof.
  intros H. unfold sublinear_tf.
  assert (H1 : 0 < INR (1 + f1)) by (apply lt_0_INR; lia).
  assert (H2 : INR (1 + f1) < INR (1 + f2)) by (apply lt_INR; lia).
  pose proof (ln_increasing _ _ H1 H2). lra.
Qed.

(** The scaling is sublinear: at most one more than the count. *)
Lemma sublinear_tf_le (f : nat) : sublinear_tf f <= 1 + INR f.
Proof.
  unfold sublinear_tf. rewrite plus_INR. simpl (INR 1).
  destruct f as [|f].
  - simpl. replace (1 + 0) with 1 by lra. rewrite ln_1. lra.
  - assert (Hf : 0 < INR (S f)) by (apply lt_0_INR; lia).
    assert (He : 1 + INR (S f) < exp (INR (S f))) by (apply exp_ineq1; lra).
    assert (ln (1 + INR (S f)) < ln (exp (INR (S f)))).
    { apply ln_increasing; lra. }
    rewrite ln_exp in *. lra.
Qed.

Lemma document_vector_lookup (idf : dict R) (toks : list string) (t : string) :
  dict_get (document_vector idf toks) t
  = option_map (fun v => v / l2_norm (raw_weights idf toks))
      (dict_get (raw_weights idf toks) t).
Proof.
  rewrite document_vector_eq.
  apply (dict_get_map (fun v => v / l2_norm (raw_weights idf toks))).
Qed.

End TermFrequency.

(** X11. Within a document, of two terms with the same Vocabulary weight
    [i > 0] the one that occurs more often has the strictly larger weight,
    before and after normalization; and the dampening is real: the raw
    weight of a term that occurs [f] times is at least [(1 + ln 2) * i] and
    at most [(1 + f) * i]. *)
Theorem more_frequent_weighs_more
    (idf : dict R) (toks : list string) (t1 t2 : string) (i : R) :
  dict_get idf t1 = Some i -> dict_get idf t2 = Some i -> (0 < i)%R ->
  0 < term_count t1 toks < term_count t2 toks ->
  exists r1 r2 w1 w2,
    dict_get (raw_weights idf toks) t1 = Some r1 /\
    dict_get (raw_weights idf toks) t2 = Some r2 /\
    dict_get (document_vector idf toks) t1 = Some w1 /\
    dict_get (document_vector idf toks) t2 = Some w2 /\
    (r1 < r2)%R /\ (w1 < w2)%R /\
    ((1 + ln 2) * i <= r1 <= (1 + INR (term_count t1 toks)) * i)%R /\
    ((1 + ln 2) * i <= r2 <= (1 + INR (term_count t2 toks)) * i)%R.
Proof.
  intros H1 H2 Hi [Hf1 Hf12].
  pose proof (raw_weights_lookup idf toks t1) as L1.
  pose proof (raw_weights_lookup idf toks t2) as L2.
  rewrite H1 in L1. rewrite H2 in L2.
  destruct (term_count t1 toks) as [|f1] eqn:E1; [lia|].
  destruct (term_count t2 toks) as [|f2] eqn:E2; [lia|].
  pose proof (sublinear_tf_increasing _ _ Hf12) as Hinc.
  pose proof (sublinear_tf_ge (S f1) ltac:(lia)) as Hge1.
  pose proof (sublinear_tf_ge (S f2) ltac:(lia)) as Hge2.
  pose proof (sublinear_tf_le (S f1)) as Hle1.
  pose proof (sublinear_tf_le (S f2)) as Hle2.
  pose proof (l2_norm_pos (raw_weights idf toks)) as Hn.
  exists (sublinear_tf (S f1) * i)%R, (sublinear_tf (S f2) * i)%R.
  exists (sublinear_tf (S f1) * i / l2_norm (raw_weights idf toks))%R.
  exists (sublinear_tf (S f2) * i / l2_norm (raw_weights idf toks))%R.
  rewrite !document_vector_lookup, L1, L2. simpl option_map.
  repeat split; try reflexivity; try nra.
  unfold Rdiv. apply Rmult_lt_compat_r; [now apply Rinv_0_lt_compat | nra].
Qed.

Lemma more_frequent_weighs_more_witness :
  dict_get [("a", 1%R); ("b", 1%R)] "a" = Some 1%R /\
  dict_get [("a", 1%R); ("b", 1%R)] "b" = Some 1%R /\
  (0 < 1)%R /\
  0 < term_count "a" ["a"; "b"; "b"] < term_count "b" ["a"; "b"; "b"] /\
  exists w1 w2,
    dict_get (document_vector [("a", 1%R); ("b", 1%R)] ["a"; "b"; "b"]) "a"
    = Some w1 /\
    dict_get (document_vector [("a", 1%R); ("b", 1%R)] ["a"; "b"; "b"]) "b"
    = Some w2 /\
    (w1 < w2)%R.
Proof.
  assert (Hc : 0 < term_count "a" ["a"; "b"; "b"]
               < term_count "b" ["a"; "b"; "b"]) by (vm_compute; lia).
  split; [reflexivity|]. split; [reflexivity|]. split; [lra|].
  split; [exact Hc|].
  destruct (more_frequent_weighs_more [("a", 1%R); ("b", 1%R)]
              ["a"; "b"; "b"] "a" "b" 1%R eq_refl eq_refl Rlt_0_1 Hc)
    as (r1 & r2 & w1 & w2 & _ & _ & Hw1 & Hw2 & _ & Hlt & _).
  exists w1, w2. repeat split; assumption.
Defined.

(** ** Rows that are skipped, and the order of the documents *)

Section SkippedRows.

(** A row that is skipped leaves the whole state of the first loop as it
    was. *)
Lemma corpus_step_skipped (pre : list Drug) (d : Drug) :
  skipped pre d = true -> corpus_step (build_corpus pre) d = build_corpus pre.
Proof.
  rewrite skipped_eq, corpus_step_eq.
  destruct (PyStr.is_empty (record_name d)) eqn:Hn; [reflexivity|].
  simpl. rewrite (seen_earlier_keys pre d Hn). now intros ->.
Qed.

Lemma build_corpus_skip (pre post : list Drug) (d : Drug) :
  skipped pre d = true ->
  build_corpus (pre ++ d :: post) = build_corpus (pre ++ post).
Proof.
  intros H. unfold build_corpus. rewrite !fold_left_app. simpl.
  fold (build_corpus pre). now rewrite corpus_step_skipped.
Qed.

Lemma doc_count_perm (t : string) (docs docs' : list (list string)) :
  Permutation docs docs' -> doc_count t docs = doc_count t docs'.
Proof.
  induction 1 as [|x l l' _ IH|x y l|l l' l'' _ IH1 _ IH2].
  - reflexivity.
  - now rewrite !doc_count_cons, IH.
  - rewrite !doc_count_cons. lia.
  - congruence.
Qed.

(** In a run every token of a document is in the table, with the weight of
    its document frequency. *)
Lemma corpus_tokens_known (iter : list string -> list string)
    (corpus : list string) (toks : list string) (t : string) :
  set_order iter -> In toks (map tokenize corpus) -> In t toks ->
  dict_get (vocabulary iter corpus) t
  = Some (idf_weight (List.length corpus)
            (doc_count t (map tokenize corpus))).
Proof.
  intros Hiter Htoks Ht. rewrite (vocabulary_lookup iter Hiter).
  assert (Hpos : 0 < doc_count t (map tokenize corpus))
    by (apply doc_count_pos; now exists toks).
  destruct (doc_count t (map tokenize corpus)); [lia | reflexivity].
Qed.

End SkippedRows.

(** X12. A row the corpus builder skips, for whichever reason (no name, or
    a name whose key an earlier row has), has no effect at all: the state of
    the loop after the rows is the one without it, and so is the whole run
    on the other rows when there are any. *)
Theorem skipped_row_has_no_effect
    (rt : runtime) (pre post : list Drug) (d : Drug) (fs : files) :
  skipped pre d = true ->
  build_corpus (pre ++ d :: post) = build_corpus (pre ++ post) /\
  (pre ++ post <> [] ->
   main rt (pre ++ d :: post) fs = main rt (pre ++ post) fs).
Proof.
  intros H. pose proof (build_corpus_skip pre post d H) as E.
  split; [exact E|]. intros Hne. rewrite !main_eq.
  destruct pre as [|p pre]; simpl in *.
  - destruct post; [now contradiction Hne | now rewrite E].
  - now rewrite E.
Qed.

Lemma skipped_row_has_no_effect_witness :
  skipped [drug_of "Aspirin" "pain relief"] (drug_of "aspirin " "copy") = true /\
  build_corpus ([drug_of "Aspirin" "pain relief"]
                  ++ drug_of "aspirin " "copy" :: three_records)
  = build_corpus ([drug_of "Aspirin" "pain relief"] ++ three_records).
Proof.
  split; [reflexivity|].
  exact (proj1 (skipped_row_has_no_effect run_first
                  [drug_of "Aspirin" "pain relief"] three_records
                  (drug_of "aspirin " "copy") [] eq_refl)).
Defined.

(** X13. The weights do not depend on the order of the documents: for two
    corpora with the same texts in different orders (and any two orders of
    sets) the Vocabularies give every term the same weight, and every token
    sequence gets the same document vector. *)
Theorem vocabulary_order_independent
    (iter1 iter2 : list string -> list string)
    (corpus1 corpus2 : list string) :
  set_order iter1 -> set_order iter2 ->
  Permutation corpus1 corpus2 ->
  (forall t, dict_get (vocabulary iter1 corpus1) t
             = dict_get (vocabulary iter2 corpus2) t) /\
  (forall toks, document_vector (vocabulary iter1 corpus1) toks
                = document_vector (vocabulary iter2 corpus2) toks).
Proof.
  intros H1 H2 P.
  assert (Hget : forall t, dict_get (vocabulary iter1 corpus1) t
                           = dict_get (vocabulary iter2 corpus2) t).
  { intros t.
    rewrite (vocabulary_lookup iter1 H1), (vocabulary_lookup iter2 H2).
    rewrite (doc_count_perm t _ _ (Permutation_map tokenize P)).
    now rewrite (Permutation_length P). }
  split; [exact Hget|]. intros toks. unfold document_vector.
  now rewrite (raw_weights_ext _ _ toks Hget).
Qed.

Lemma vocabulary_order_independent_witness :
  set_order first_seen /\ set_order last_seen /\
  Permutation scenario_texts (rev scenario_texts) /\
  dict_get (vocabulary first_seen scenario_texts) "fever"
  = dict_get (vocabulary last_seen (rev scenario_texts)) "fever".
Proof.
  split; [exact first_seen_order|]. split; [exact last_seen_order|].
  split; [apply Permutation_rev|].
  exact (proj1 (vocabulary_order_independent first_seen last_seen
                  scenario_texts (rev scenario_texts)
                  first_seen_order last_seen_order
                  (Permutation_rev scenario_texts)) "fever").
Defined.

(** X14. In a run, the vector of a document of the corpus is empty exactly
    when the text of the document has no letter [a-z] (it has no token);
    otherwise its norm is 1.  (Such documents exist: a record whose fields
    hold digits only is kept and counts among the N documents.) *)
Theorem corpus_vectors_unit_or_empty
    (iter : list string -> list string) (texts : list string)
    (toks : list string) :
  set_order iter -> In toks (map tokenize texts) ->
  let vec := document_vector (vocabulary iter texts) toks in
  (vec = [] <-> toks = []) /\
  (toks <> [] -> sqrt (sum_squares (values vec)) = 1%R).
Proof.
  intros Hiter Htoks vec.
  set (idf := vocabulary iter texts) in *.
  assert (Hraw : raw_weights idf toks = [] <-> toks = []).
  { rewrite raw_weights_nil. split.
    - intros H. destruct toks as [|t toks']; [reflexivity|].
      specialize (H t (or_introl eq_refl)). unfold idf in H.
      rewrite (corpus_tokens_known iter texts (t :: toks') t Hiter Htoks)
        in H by now left.
      discriminate.
    - intros -> t []. }
  assert (Hvec : vec = [] <-> raw_weights idf toks = []).
  { unfold vec. rewrite document_vector_eq.
    destruct (raw_weights idf toks); simpl; split; congruence. }
  split; [now rewrite Hvec|].
  intros Hne. unfold vec, document_vector.
  apply l2_normalize_unit; [apply raw_weights_NoDup|].
  apply sum_squares_pos.
  - unfold values. intros E. apply map_eq_nil in E. now apply Hne, Hraw.
  - apply raw_weights_nonzero. intros t i Hi.
    apply (vocabulary_ge_1 iter Hiter) in Hi. lra.
Qed.

Example digits_only_record :
  corpus (build_corpus [drug_of "123" "45"]) = ["123 45"] /\
  tokenize "123 45" = [].
Proof. split; reflexivity. Qed.

Lemma corpus_vectors_unit_or_empty_witness :
  set_order first_seen /\
  In ["a"; "fever"; "pain"] (map tokenize scenario_texts) /\
  sqrt (sum_squares
          (values (document_vector (vocabulary first_seen scenario_texts)
                     ["a"; "fever"; "pain"]))) = 1%R.
Proof.
  split; [exact first_seen_order|].
  assert (H : In ["a"; "fever"; "pain"] (map tokenize scenario_texts))
    by now left.
  split; [exact H|].
  apply (proj2 (corpus_vectors_unit_or_empty first_seen scenario_texts
                  ["a"; "fever"; "pain"] first_seen_order H)).
  discriminate.
Defined.

(** X15. Every term of a Vocabulary, and so every term of a document vector
    of a run, is a non-empty word over the letters [a-z]: no digit, no
    upper-case letter, no punctuation ever becomes a key. *)
Theorem vocabulary_terms_are_words
    (iter : list string -> list string) (corpus : list string) :
  set_order iter ->
  Forall (fun t => t <> EmptyString /\ all_az t = true)
         (keys (vocabulary iter corpus)).
Proof.
  intros Hiter. apply Forall_forall. intros t Ht.
  apply (vocabulary_keys iter Hiter) in Ht as (toks & Hin & Ht).
  apply in_map_iff in Hin as (text & <- & _).
  assert (H : Forall (fun t => t <> EmptyString /\ all_az t = true)
                     (tokenize text)).
  { apply (maximal_runs_tokens (PyStr.lower text)).
    now apply findall_maximal_runs. }
  rewrite Forall_forall in H. now apply H.
Qed.

Lemma vocabulary_terms_are_words_witness :
  set_order first_seen /\
  Forall (fun t => t <> EmptyString /\ all_az t = true)
         (keys (vocabulary first_seen ["Drug-123 Interacts (severely)!"])).
Proof.
  split; [exact first_seen_order|].
  exact (vocabulary_terms_are_words first_seen
           ["Drug-123 Interacts (severely)!"] first_seen_order).
Defined.

(** ** Tokenizing tokens *)

Section Retokenize.

Import PyStr.

Local Open Scope string_scope.

Lemma lower_char_az (c : ascii) : is_az c = true -> lower_char c = c.
Proof.
  destruct c as [[] [] [] [] [] [] [] []]; intros H; try reflexivity;
    vm_compute in H; discriminate H.
Qed.

Lemma lower_all_az (t : string) : all_az t = true -> lower t = t.
Proof.
  induction t as [|c t IH]; simpl; [reflexivity|]. intros H.
  apply andb_true_iff in H as [Hc Ht]. now rewrite lower_char_az, IH.
Qed.

(** A word over [a-z] is its own single token. *)
Lemma tokenize_word (t : string) :
  t <> EmptyString -> all_az t = true -> tokenize t = [t]%list.
Proof.
  intros Hne Haz. unfold tokenize, TOKEN_RE_findall.
  rewrite (lower_all_az t Haz).
  rewrite <- (append_empty_r t) at 1.
  rewrite findall_from_run by assumption. simpl.
  now apply emit_nonempty.
Qed.

Lemma concat_singletons {A : Type} (l : list A) :
  List.concat (map (fun x => [x]%list) l) = l.
Proof. induction l as [|x l IH]; simpl; [reflexivity | now rewrite IH]. Qed.

End Retokenize.

(** X16. Tokens survive a round trip: joining the tokens of a text with
    spaces and tokenizing the result gives the same tokens again, and a
    token on its own is its only token.  (So the terms of the artifacts can
    be fed back to [tokenize] unchanged.) *)
Theorem tokenize_round_trip (text : string) :
  tokenize (PyStr.join " " (tokenize text)) = tokenize text /\
  Forall (fun t => tokenize t = [t]) (tokenize text).
Proof.
  assert (H : Forall (fun t => tokenize t = [t]) (tokenize text)).
  { assert (Hw : Forall (fun t => t <> EmptyString /\ all_az t = true)
                        (tokenize text)).
    { apply (maximal_runs_tokens (PyStr.lower text)).
      now apply findall_maximal_runs. }
    apply Forall_forall. intros t Ht. rewrite Forall_forall in Hw.
    destruct (Hw t Ht) as [Hne Haz]. now apply tokenize_word. }
  split; [|exact H].
  rewrite tokenize_join.
  rewrite <- (concat_singletons (tokenize text)) at 2.
  f_equal. apply map_ext_in. intros t Ht.
  rewrite Forall_forall in H. now apply H.
Qed.
